(** * Legal Aid Student Portal: shallow embedding of the frontend logic

    The React frontend of the legal-aid portal is a thin layer over REST
    calls.  What follows embeds the parts of it that carry logic:
    - the helper module (badge style and label lookups, [formatDate]);
    - the submission handlers of the student portal, the query page, the
      document generator and the response page, as programs that interleave
      UI effects with awaited HTTP requests;
    - the query page as a small state machine driven by UI events and
      server responses;
    - the [AudioPlayer] component's rendering;
    - the student portal's list loading, deletions, case creation and
      assignment, and its case table's "Assigned To" cell;
    - the response page's loading effect and what it shows;
    - the document download, the voice recorder (its [processAudio] and
      its buttons as a state machine) and the navbar's active link.

    JavaScript strings are sequences of UTF-16 code units; they are modelled
    as [list Z].  ASCII literals of the source are written [lit "..."]. *)

From Stdlib Require Import ZArith List String Ascii Bool Lia.
Import ListNotations.

Open Scope Z_scope.
Set Warnings "-register-all".

(** ** JavaScript strings *)

Definition jsstr := list Z.

(** An ASCII literal of the source as UTF-16 code units. *)
Fixpoint lit (s : string) : jsstr :=
  match s with
  | EmptyString => []
  | String a r => Z.of_nat (nat_of_ascii a) :: lit r
  end.

Fixpoint jsstr_eqb (a b : jsstr) : bool :=
  match a, b with
  | [], [] => true
  | x :: a', y :: b' => Z.eqb x y && jsstr_eqb a' b'
  | _, _ => false
  end.

(** ECMAScript WhiteSpace and LineTerminator code units, the set that
    [String.prototype.trim] removes. *)
Definition ws_units : list Z :=
  [9; 10; 11; 12; 13; 32; 160; 5760;
   8192; 8193; 8194; 8195; 8196; 8197; 8198; 8199; 8200; 8201; 8202;
   8232; 8233; 8239; 8287; 12288; 65279].

Definition is_ws (c : Z) : bool := existsb (Z.eqb c) ws_units.

Fixpoint trim_start (s : jsstr) : jsstr :=
  match s with
  | [] => []
  | c :: r => if is_ws c then trim_start r else s
  end.

Definition trim_end (s : jsstr) : jsstr := rev (trim_start (rev s)).

(** [s.trim()] *)
Definition trim (s : jsstr) : jsstr := trim_end (trim_start s).

(** Truthiness of a string: only the empty string is falsy. *)
Definition str_truthy (s : jsstr) : bool :=
  match s with [] => false | _ => true end.

(** [s.includes(c)] for a one-unit needle. *)
Definition includes_unit (s : jsstr) (c : Z) : bool := existsb (Z.eqb c) s.

(** [s.split(sep)] for a one-unit separator: the pieces between separators,
    with [""] for the empty string. *)
Fixpoint split_unit (sep : Z) (s : jsstr) : list jsstr :=
  match s with
  | [] => [[]]
  | c :: r =>
      let segs := split_unit sep r in
      if Z.eqb c sep then [] :: segs
      else match segs with
           | seg :: rest => (c :: seg) :: rest
           | [] => [[c]]
           end
  end.

Definition comma : Z := 44.
Definition at_sign : Z := 64.

(** ** JavaScript values read out of object literals

    The lookup tables of the helper module are object literals, indexed
    with [obj[key]].  A key that is not an own property is looked up on
    [Object.prototype], whose properties are functions (and the
    [__proto__] accessor, which yields [Object.prototype] itself). *)

Inductive jsval :=
| JUndefined
| JNull
| JStr (s : jsstr)
| JFun (name : jsstr)
| JObj (name : jsstr).

Definition truthy (v : jsval) : bool :=
  match v with
  | JUndefined | JNull => false
  | JStr s => str_truthy s
  | JFun _ | JObj _ => true
  end.

(** [a || b] *)
Definition js_or (a b : jsval) : jsval := if truthy a then a else b.

Definition object_prototype_methods : list jsstr :=
  map lit ["__defineGetter__"; "__defineSetter__"; "hasOwnProperty";
           "__lookupGetter__"; "__lookupSetter__"; "isPrototypeOf";
           "propertyIsEnumerable"; "toString"; "valueOf"; "toLocaleString"]%string.

Definition in_keys (k : jsstr) (ks : list jsstr) : bool :=
  existsb (jsstr_eqb k) ks.

(** Properties inherited from [Object.prototype]. *)
Definition proto_get (k : jsstr) : jsval :=
  if jsstr_eqb k (lit "constructor") then JFun (lit "Object")
  else if jsstr_eqb k (lit "__proto__") then JObj (lit "Object.prototype")
  else if in_keys k object_prototype_methods then JFun k
  else JUndefined.

(** [obj[k]] for an object literal with the given own string properties. *)
Fixpoint obj_get (obj : list (jsstr * jsstr)) (k : jsstr) : jsval :=
  match obj with
  | [] => proto_get k
  | (k', v) :: r => if jsstr_eqb k k' then JStr v else obj_get r k
  end.

(** ** Helper module: badge styles and labels *)

Definition category_styles : list (jsstr * jsstr) :=
  [(lit "fir", lit "category-fir");
   (lit "rti", lit "category-rti");
   (lit "consumer", lit "category-consumer");
   (lit "labour", lit "category-labour");
   (lit "family", lit "category-family");
   (lit "property", lit "category-property");
   (lit "general", lit "category-general")].

Definition getCategoryStyle (category : jsstr) : jsval :=
  js_or (obj_get category_styles category)
        (obj_get category_styles (lit "general")).

Definition category_labels : list (jsstr * jsstr) :=
  [(lit "fir", lit "FIR / Police");
   (lit "rti", lit "RTI");
   (lit "consumer", lit "Consumer");
   (lit "labour", lit "Labour");
   (lit "family", lit "Family");
   (lit "property", lit "Property");
   (lit "general", lit "General")].

Definition getCategoryLabel (category : jsstr) : jsval :=
  js_or (obj_get category_labels category) (JStr category).

Definition status_styles : list (jsstr * jsstr) :=
  [(lit "open", lit "status-open");
   (lit "assigned", lit "status-assigned");
   (lit "closed", lit "status-closed")].

Definition getStatusStyle (status : jsstr) : jsval :=
  js_or (obj_get status_styles status) (obj_get status_styles (lit "open")).

(** The Devanagari and Telugu labels, as UTF-16 code units. *)
Definition label_hi : jsstr := [2361; 2367; 2306; 2342; 2368].
Definition label_te : jsstr := [3108; 3142; 3122; 3137; 3095; 3137].

Definition language_labels : list (jsstr * jsstr) :=
  [(lit "en", lit "English"); (lit "hi", label_hi); (lit "te", label_te)].

Definition getLanguageLabel (code : jsstr) : jsval :=
  js_or (obj_get language_labels code) (JStr code).

Definition known_categories : list jsstr :=
  map lit ["fir"; "rti"; "consumer"; "labour"; "family"; "property"; "general"]%string.

Definition known_statuses : list jsstr :=
  map lit ["open"; "assigned"; "closed"]%string.

Definition known_languages : list jsstr := map lit ["en"; "hi"; "te"]%string.

(** ** Values exchanged with the backend

    Request bodies and response data are parsed JSON, plus the [Blob]
    objects that axios delivers for [responseType: 'blob'].  JSON numbers
    occurring here are integers. *)

Inductive value :=
| VNull
| VBool (b : bool)
| VNum (n : Z)
| VStr (s : jsstr)
| VArr (items : list value)
| VObj (fields : list (jsstr * value))
| VBlob (bytes : list Z).

Definition value_truthy (v : value) : bool :=
  match v with
  | VNull => false
  | VBool b => b
  | VNum n => negb (Z.eqb n 0)
  | VStr s => str_truthy s
  | VArr _ | VObj _ | VBlob _ => true
  end.

(** [o.k] on a parsed JSON object: the last binding wins, as in
    [JSON.parse]; [None] is [undefined]. *)
Definition field (fs : list (jsstr * value)) (k : jsstr) : option value :=
  fold_left (fun acc '(k', v) => if jsstr_eqb k k' then Some v else acc) fs None.

(** Decimal digits of a non-negative integer. *)
Fixpoint dec_digits (fuel : nat) (n : Z) (acc : jsstr) : jsstr :=
  match fuel with
  | O => acc
  | S f =>
      let acc' := (48 + n mod 10) :: acc in
      if n <? 10 then acc' else dec_digits f (n / 10) acc'
  end.

Definition Z_to_dec (n : Z) : jsstr :=
  let fuel := S (Z.to_nat (Z.log2 (Z.abs n))) in
  if n <? 0 then 45 :: dec_digits fuel (- n) [] else dec_digits fuel n [].

(** [String(v)], the conversion used by template literals. *)
Fixpoint to_js_string (v : value) : jsstr :=
  match v with
  | VNull => lit "null"
  | VBool true => lit "true"
  | VBool false => lit "false"
  | VNum n => Z_to_dec n
  | VStr s => s
  | VArr items =>
      (fix join (l : list value) : jsstr :=
         match l with
         | [] => []
         | [x] => match x with VNull => [] | _ => to_js_string x end
         | x :: r => (match x with VNull => [] | _ => to_js_string x end)
                       ++ comma :: join r
         end) items
  | VObj _ => lit "[object Object]"
  | VBlob _ => lit "[object Blob]"
  end.

(** [String(v)] of a property read, where [None] is [undefined]. *)
Definition opt_to_js_string (v : option value) : jsstr :=
  match v with None => lit "undefined" | Some v => to_js_string v end.

Definition opt_truthy (v : option value) : bool :=
  match v with None => false | Some v => value_truthy v end.

(** [a || b] on property reads. *)
Definition opt_or (a : option value) (b : value) : value :=
  match a with Some v => if value_truthy v then v else b | None => b end.

(** UTF-8 encoding of a string, as [Blob] does it: surrogate pairs are
    combined and lone surrogates become U+FFFD. *)
Definition utf8_cp (c : Z) : list Z :=
  if c <? 128 then [c]
  else if c <? 2048 then [192 + c / 64; 128 + c mod 64]
  else if c <? 65536 then
    [224 + c / 4096; 128 + (c / 64) mod 64; 128 + c mod 64]
  else [240 + c / 262144; 128 + (c / 4096) mod 64;
        128 + (c / 64) mod 64; 128 + c mod 64].

Definition is_high_surrogate (c : Z) : bool := (55296 <=? c) && (c <=? 56319).
Definition is_low_surrogate (c : Z) : bool := (56320 <=? c) && (c <=? 57343).

Fixpoint utf8 (s : jsstr) : list Z :=
  match s with
  | [] => []
  | c :: r =>
      if is_high_surrogate c then
        match r with
        | d :: r' =>
            if is_low_surrogate d
            then utf8_cp (65536 + (c - 55296) * 1024 + (d - 56320)) ++ utf8 r'
            else utf8_cp 65533 ++ utf8 r
        | [] => utf8_cp 65533
        end
      else if is_low_surrogate c then utf8_cp 65533 ++ utf8 r
      else utf8_cp c ++ utf8 r
  end.

(** The bytes of [new Blob([v])]. *)
Definition blob_bytes (v : value) : list Z :=
  match v with
  | VBlob b => b
  | _ => utf8 (to_js_string v)
  end.

(** [JSON.stringify] drops properties whose value is [undefined]. *)
Definition obj_body (fs : list (jsstr * option value)) : value :=
  VObj ((fix go (l : list (jsstr * option value)) :=
           match l with
           | [] => []
           | (k, Some v) :: r => (k, v) :: go r
           | (k, None) :: r => go r
           end) fs).

(** ** Handlers as programs

    A handler is an [async] function: it performs UI effects ([Do]) and
    awaits HTTP requests ([Await]), continuing with the response, which is
    either the resolved data or a rejection caught by its [catch] block. *)

Inductive response_type := RTJson | RTBlob.

Record req := Post { req_url : jsstr; req_body : value; req_type : response_type }.

Inductive resp := Resolved (data : value) | Rejected.

Inductive url := HttpURL (s : jsstr) | BlobURL (bytes : list Z) (mime : jsstr).

Inductive toast_kind := ToastSuccess | ToastError.

Inductive event :=
| EPreventDefault
| EToast (k : toast_kind) (msg : jsstr)
| EConsoleError (msg : jsstr)
| ESetState (name : jsstr) (v : value)
| ENavigate (path : jsstr)
| EFetchData
| EPauseCurrentAudio
| EAudioPlay (src : url).

Inductive prog :=
| Done
| Do (e : event) (k : prog)
| Await (r : req) (k : resp -> prog).

Notation "e ;; k" := (Do e k) (at level 100, right associativity).

(** The request a program issues first, if any. *)
Fixpoint first_request (p : prog) : option req :=
  match p with
  | Done => None
  | Do _ k => first_request k
  | Await r _ => Some r
  end.

Inductive obs := OReq (r : req) | OEv (e : event).

(** The observable run of a program against a server. *)
Fixpoint run (srv : req -> resp) (p : prog) : list obs :=
  match p with
  | Done => []
  | Do e k => OEv e :: run srv k
  | Await r k => OReq r :: run srv (k (srv r))
  end.

Definition is_req (o : obs) : bool := match o with OReq _ => true | _ => false end.

Section Handlers.

(** [process.env.REACT_APP_BACKEND_URL] *)
Variable BACKEND_URL : jsstr.

Definition API : jsstr := BACKEND_URL ++ lit "/api".

(** *** StudentPortal: [handleAddStudent] *)

Record student_form := {
  sf_name : jsstr;
  sf_email : jsstr;
  sf_college : jsstr;
  sf_skills : jsstr
}.

(** [newStudent.skills.split(',').map(s => s.trim()).filter(Boolean)] *)
Definition skillsArray (skills : jsstr) : list jsstr :=
  filter str_truthy (map trim (split_unit comma skills)).

(** [{ ...newStudent, skills: skillsArray }] *)
Definition student_body (s : student_form) : value :=
  VObj [(lit "name", VStr (sf_name s));
        (lit "email", VStr (sf_email s));
        (lit "college", VStr (sf_college s));
        (lit "skills", VArr (map VStr (skillsArray (sf_skills s))))].

Definition empty_student : value :=
  VObj [(lit "name", VStr []); (lit "email", VStr []);
        (lit "college", VStr []); (lit "skills", VStr [])].

Definition handleAddStudent (s : student_form) : prog :=
  EPreventDefault ;;
  (if negb (str_truthy (trim (sf_name s))) then
     EToast ToastError (lit "Please enter student name") ;; Done
   else if negb (str_truthy (trim (sf_email s))) then
     EToast ToastError (lit "Please enter email address") ;; Done
   else if negb (includes_unit (sf_email s) at_sign) then
     EToast ToastError (lit "Please enter a valid email address") ;; Done
   else if negb (str_truthy (trim (sf_college s))) then
     EToast ToastError (lit "Please enter college name") ;; Done
   else
     Await (Post (API ++ lit "/students") (student_body s) RTJson)
       (fun r => match r with
        | Resolved _ =>
            EToast ToastSuccess (lit "Student added successfully!") ;;
            ESetState (lit "studentDialogOpen") (VBool false) ;;
            ESetState (lit "newStudent") empty_student ;;
            EFetchData ;; Done
        | Rejected =>
            EConsoleError (lit "Error adding student:") ;;
            EToast ToastError (lit "Failed to add student. Please try again.") ;;
            Done
        end)).

(** *** QueryPage: [handleSubmit] *)

(** [response.data.id]: reading a property of [null] throws a
    [TypeError]; a non-object has no [id] and yields [undefined]. *)
Inductive prop_read := PropVal (v : option value) | PropThrow.

Definition read_prop (data : value) (k : jsstr) : prop_read :=
  match data with
  | VNull => PropThrow
  | VObj fs => PropVal (field fs k)
  | _ => PropVal None
  end.

Definition query_body (queryText language : jsstr) : value :=
  VObj [(lit "query_text", VStr queryText); (lit "language", VStr language)].

(** What [handleSubmit] does once the awaited POST settles: the rest of
    the [try] block, or the [catch] block, then the [finally] block. *)
Definition handleSubmit_after_post (r : resp) : prog :=
          let failed :=
            EConsoleError (lit "Error submitting query:") ;;
            EToast ToastError (lit "Failed to process query. Please try again.") ;;
            ESetState (lit "isSubmitting") (VBool false) ;; Done in
          match r with
          | Resolved data =>
              EToast ToastSuccess (lit "Query processed successfully!") ;;
              match read_prop data (lit "id") with
              | PropVal id =>
                  ENavigate (lit "/response/" ++ opt_to_js_string id) ;;
                  ESetState (lit "isSubmitting") (VBool false) ;; Done
              | PropThrow => failed
              end
          | Rejected => failed
          end.

Definition handleSubmit (queryText language : jsstr) : prog :=
  EPreventDefault ;;
  (if negb (str_truthy (trim queryText)) then
     EToast ToastError (lit "Please enter your legal query") ;; Done
   else
     ESetState (lit "isSubmitting") (VBool true) ;;
     Await (Post (API ++ lit "/queries") (query_body queryText language) RTJson)
       handleSubmit_after_post).

(** *** DocumentsPage: [handleGenerateDocument] *)

(** The FIR and RTI form states are objects with string fields. *)
Definition details_t := list (jsstr * jsstr).

Definition details_get (d : details_t) (k : jsstr) : option jsstr :=
  match obj_get d k with JStr s => Some s | _ => None end.

(** [{ ...details, current_date, place }]: an existing key keeps its
    position, a new one is appended. *)
Fixpoint obj_assign (fs : list (jsstr * value)) (k : jsstr) (v : value)
  : list (jsstr * value) :=
  match fs with
  | [] => [(k, v)]
  | (k', v') :: r => if jsstr_eqb k k' then (k', v) :: r else (k', v') :: obj_assign r k v
  end.

Definition details_values (d : details_t) : list (jsstr * value) :=
  fold_left (fun acc '(k, v) => obj_assign acc k (VStr v)) d [].

Definition first_piece (sep : Z) (s : jsstr) : jsstr := hd [] (split_unit sep s).

(** The request body; [None] when building it throws, i.e. when
    [details.address] is not a string. [now_iso] is
    [new Date().toISOString()]. *)
Definition document_body (docType language : jsstr) (details : details_t)
    (now_iso : jsstr) : option value :=
  match obj_get details (lit "address") with
  | JStr address =>
      let place := first_piece comma address in
      let place := if str_truthy place then place else lit "Your City" in
      Some (VObj [(lit "doc_type", VStr docType);
                  (lit "language", VStr language);
                  (lit "details",
                    VObj (obj_assign
                            (obj_assign (details_values details)
                               (lit "current_date") (VStr (first_piece 84 now_iso)))
                            (lit "place") (VStr place)))])
  | _ => None
  end.

Definition handleGenerateDocument (docType language : jsstr)
    (firDetails rtiDetails : details_t) (now_iso : jsstr) : prog :=
  let details := if jsstr_eqb docType (lit "FIR") then firDetails else rtiDetails in
  if negb (truthy (obj_get details (lit "name")))
     || negb (truthy (obj_get details (lit "address"))) then
    EToast ToastError (lit "Please fill in at least your name and address") ;; Done
  else
    let failed :=
      EConsoleError (lit "Error generating document:") ;;
      EToast ToastError (lit "Failed to generate document") ;;
      ESetState (lit "isGenerating") (VBool false) ;; Done in
    ESetState (lit "isGenerating") (VBool true) ;;
    match document_body docType language details now_iso with
    | Some body =>
        Await (Post (API ++ lit "/documents") body RTJson)
          (fun r => match r with
           | Resolved data =>
               ESetState (lit "generatedDoc") data ;;
               EToast ToastSuccess (lit "Document generated successfully!") ;;
               ESetState (lit "isGenerating") (VBool false) ;; Done
           | Rejected => failed
           end)
    | None => failed
    end.

(** *** ResponsePage: [playTextToSpeech]

    [query] is the loaded query object, [None] while it is [null]. *)
Definition query_get (query : option (list (jsstr * value))) (k : jsstr) : option value :=
  match query with None => None | Some fs => field fs k end.

Definition playTextToSpeech (query : option (list (jsstr * value))) : prog :=
  if negb (opt_truthy (query_get query (lit "response_text"))) then Done
  else
    ESetState (lit "isGeneratingSpeech") (VBool true) ;;
    Await (Post (API ++ lit "/text-to-speech")
             (obj_body [(lit "text", query_get query (lit "response_text"));
                        (lit "language",
                          Some (opt_or (query_get query (lit "detected_language"))
                                       (VStr (lit "en"))))])
             RTBlob)
      (fun r => match r with
       | Resolved data =>
           EPauseCurrentAudio ;;
           EAudioPlay (BlobURL (blob_bytes data) (lit "audio/mpeg")) ;;
           EToast ToastSuccess (lit "Playing audio response...") ;;
           ESetState (lit "isGeneratingSpeech") (VBool false) ;; Done
       | Rejected =>
           EConsoleError (lit "Error generating speech:") ;;
           EToast ToastError (lit "Failed to generate audio. Please try again.") ;;
           ESetState (lit "isGeneratingSpeech") (VBool false) ;; Done
       end).

(** *** QueryPage: text-to-speech of a voice response

    The body of [handleVoiceResponse]'s [try] block, repeated verbatim in
    the "Play Response" button's [onClick]. *)
Definition play_voice_answer (response : list (jsstr * value)) : prog :=
  ESetState (lit "isPlayingTTS") (VBool true) ;;
  Await (Post (API ++ lit "/text-to-speech")
           (obj_body [(lit "text", field response (lit "answer"));
                      (lit "language", field response (lit "language"))])
           RTBlob)
    (fun r => match r with
     | Resolved data =>
         EAudioPlay (BlobURL (blob_bytes data) (lit "audio/mpeg")) ;;
         EToast ToastSuccess (lit "Playing AI response...") ;;
         ESetState (lit "isPlayingTTS") (VBool false) ;; Done
     | Rejected =>
         EConsoleError (lit "TTS error:") ;;
         EToast ToastError (lit "Failed to play audio response") ;;
         ESetState (lit "isPlayingTTS") (VBool false) ;; Done
     end).

(** [setQueryText(response.query_text)]; an absent [query_text] is
    stored as [null] here (React would store [undefined]). *)
Definition handleVoiceResponse (response : list (jsstr * value)) : prog :=
  ESetState (lit "voiceResponse") (VObj response) ;;
  ESetState (lit "queryText") (match field response (lit "query_text") with
                               | Some v => v | None => VNull end) ;;
  play_voice_answer response.

(** *** AudioPlayer: what the component renders for an [audioId] *)
Inductive audio_player_view :=
| APNotAvailable
| APAudioElement (src : url).

Definition AudioPlayer (audioId : option value) : audio_player_view :=
  if negb (opt_truthy audioId) then APNotAvailable
  else APAudioElement (HttpURL (BACKEND_URL ++ lit "/api/audio/" ++ opt_to_js_string audioId)).

End Handlers.

(** ** Helper module: [formatDate]

    [new Date(v)] yields a time value in milliseconds, or NaN ([None]).
    Strings of the date-only form [YYYY-MM-DD] of the ECMAScript Date Time
    String Format are parsed as the standard prescribes: an element value
    out of its range (month 01-12, day 01-31) gives NaN, otherwise the time
    value of UTC midnight of that day.  Every other string goes to the
    rest of [Date.parse] (the full format and the implementation-specific
    fallback), which is the parameter [parse_other]. *)

Definition is_digit (c : Z) : bool := (48 <=? c) && (c <=? 57).

(** Days from 1970-01-01 to the given proleptic Gregorian date. *)
Definition days_from_civil (y m d : Z) : Z :=
  let y := if m <=? 2 then y - 1 else y in
  let era := y / 400 in
  let yoe := y - era * 400 in
  let mp := if m >? 2 then m - 3 else m + 9 in
  let doy := (153 * mp + 2) / 5 + d - 1 in
  let doe := yoe * 365 + yoe / 4 - yoe / 100 + doy in
  era * 146097 + doe - 719468.

Definition ms_per_day : Z := 86400000.

(** [Some r] when [s] has the form [YYYY-MM-DD], with [r] the parse. *)
Definition parse_date_only (s : jsstr) : option (option Z) :=
  match s with
  | [y1; y2; y3; y4; h1; m1; m2; h2; d1; d2] =>
      if forallb is_digit [y1; y2; y3; y4; m1; m2; d1; d2]
         && Z.eqb h1 45 && Z.eqb h2 45 then
        let y := (y1 - 48) * 1000 + (y2 - 48) * 100 + (y3 - 48) * 10 + (y4 - 48) in
        let m := (m1 - 48) * 10 + (m2 - 48) in
        let d := (d1 - 48) * 10 + (d2 - 48) in
        if (1 <=? m) && (m <=? 12) && (1 <=? d) && (d <=? 31)
        then Some (Some (days_from_civil y m d * ms_per_day))
        else Some None
      else None
  | _ => None
  end.

Definition Date_parse (parse_other : jsstr -> option Z) (s : jsstr) : option Z :=
  match parse_date_only s with
  | Some r => r
  | None => parse_other s
  end.

Definition time_clip (t : Z) : option Z :=
  if Z.abs t <=? 8640000000000000 then Some t else None.

(** [new Date(v)] for a value read from the backend's JSON. *)
Definition new_Date (parse_other : jsstr -> option Z) (v : value) : option Z :=
  match v with
  | VNull => time_clip 0
  | VBool b => time_clip (if b then 1 else 0)
  | VNum n => time_clip n
  | VStr s => Date_parse parse_other s
  | _ => Date_parse parse_other (to_js_string v)
  end.

(** The result of [formatDate]: the empty string, the [en-IN] short date
    of a valid time value (rendered by the host's [Intl] in the local time
    zone), or the string ["Invalid Date"], which [toLocaleDateString]
    returns for NaN. *)
Inductive date_text :=
| DTEmpty
| DTLocale (tv : Z)
| DTInvalid.

(** [dateString] is [None] when [undefined]. *)
Definition formatDate (parse_other : jsstr -> option Z) (dateString : option value)
  : date_text :=
  match dateString with
  | None => DTEmpty
  | Some v =>
      if negb (value_truthy v) then DTEmpty
      else match new_Date parse_other v with
           | Some tv => DTLocale tv
           | None => DTInvalid
           end
  end.

(** ** QueryPage as a state machine

    The page state holds what [handleSubmit] reads and writes, the
    continuations of the POSTs in flight and the log of POSTs issued.
    Each UI event is handled on the state React last rendered: a click
    reaches [handleSubmit] only through the submit button, which is
    rendered with [disabled={isSubmitting || !queryText.trim()}].
    Navigating away unmounts the page; later state updates are dropped. *)

Record qpage := {
  qp_text : jsstr;
  qp_lang : jsstr;
  qp_submitting : bool;
  qp_mounted : bool;
  qp_pending : list (resp -> prog);
  qp_posts : list req
}.

Definition qp_init : qpage :=
  {| qp_text := []; qp_lang := lit "en"; qp_submitting := false;
     qp_mounted := true; qp_pending := []; qp_posts := [] |}.

Definition set_text (t : jsstr) (st : qpage) : qpage :=
  {| qp_text := t; qp_lang := qp_lang st; qp_submitting := qp_submitting st;
     qp_mounted := qp_mounted st; qp_pending := qp_pending st; qp_posts := qp_posts st |}.

Definition set_lang (l : jsstr) (st : qpage) : qpage :=
  {| qp_text := qp_text st; qp_lang := l; qp_submitting := qp_submitting st;
     qp_mounted := qp_mounted st; qp_pending := qp_pending st; qp_posts := qp_posts st |}.

Definition set_submitting (b : bool) (st : qpage) : qpage :=
  {| qp_text := qp_text st; qp_lang := qp_lang st; qp_submitting := b;
     qp_mounted := qp_mounted st; qp_pending := qp_pending st; qp_posts := qp_posts st |}.

Definition unmount (st : qpage) : qpage :=
  {| qp_text := qp_text st; qp_lang := qp_lang st; qp_submitting := qp_submitting st;
     qp_mounted := false; qp_pending := qp_pending st; qp_posts := qp_posts st |}.

Definition set_pending (ks : list (resp -> prog)) (st : qpage) : qpage :=
  {| qp_text := qp_text st; qp_lang := qp_lang st; qp_submitting := qp_submitting st;
     qp_mounted := qp_mounted st; qp_pending := ks; qp_posts := qp_posts st |}.

Definition start_request (r : req) (k : resp -> prog) (st : qpage) : qpage :=
  {| qp_text := qp_text st; qp_lang := qp_lang st; qp_submitting := qp_submitting st;
     qp_mounted := qp_mounted st; qp_pending := k :: qp_pending st;
     qp_posts := r :: qp_posts st |}.

Definition apply_event (e : event) (st : qpage) : qpage :=
  match e with
  | ESetState name (VBool b) =>
      if qp_mounted st && jsstr_eqb name (lit "isSubmitting")
      then set_submitting b st else st
  | ENavigate _ => unmount st
  | _ => st
  end.

(** Run a program on the page until it finishes or awaits a request. *)
Fixpoint settle (p : prog) (st : qpage) : qpage :=
  match p with
  | Done => st
  | Do e k => settle k (apply_event e st)
  | Await r k => start_request r k st
  end.

Definition submit_enabled (st : qpage) : bool :=
  negb (qp_submitting st || negb (str_truthy (trim (qp_text st)))).

Inductive qevent :=
| QType (t : jsstr)
| QLanguage (l : jsstr)
| QClickSubmit
| QRespond (r : resp).

Section QueryPageMachine.

Variable BACKEND_URL : jsstr.

Inductive qstep : qpage -> qevent -> qpage -> Prop :=
| qstep_type st t :
    qp_mounted st = true -> qstep st (QType t) (set_text t st)
| qstep_language st l :
    qp_mounted st = true -> qstep st (QLanguage l) (set_lang l st)
| qstep_submit st :
    qp_mounted st = true -> submit_enabled st = true ->
    qstep st QClickSubmit
      (settle (handleSubmit BACKEND_URL (qp_text st) (qp_lang st)) st)
| qstep_respond st l1 k l2 r :
    qp_pending st = l1 ++ k :: l2 ->
    qstep st (QRespond r) (settle (k r) (set_pending (l1 ++ l2) st)).

Inductive qreachable : qpage -> Prop :=
| qreach_init : qreachable qp_init
| qreach_step st ev st' : qreachable st -> qstep st ev st' -> qreachable st'.

End QueryPageMachine.

(** ** Handlers with reads, updates and deletions

    The student portal, the response page and the voice recorder also
    issue [GET], [PATCH] and [DELETE] requests, and [fetchData] awaits two
    requests at once with [Promise.all].  Their handlers are programs over
    these requests, with the UI effects of each component as events. *)

Inductive http_method := GET | POST | PATCH | DELETE.

(** An axios call: method, URL and body ([None] when the call has none). *)
Record hreq := HReq { hr_method : http_method; hr_url : jsstr; hr_body : option value }.

Inductive hprog (E : Type) :=
| HDone
| HDo (e : E) (k : hprog E)
| HAwait (r : hreq) (k : resp -> hprog E)
| HAwaitAll (rs : list hreq) (k : resp -> hprog E).

Arguments HDone {E}.
Arguments HDo {E} e k.
Arguments HAwait {E} r k.
Arguments HAwaitAll {E} rs k.

Notation "e ;> k" := (HDo e k) (at level 100, right associativity).

(** [await Promise.all(rs)]: the array of the resolved data when every
    request resolves, a rejection (caught by the [catch] block) as soon
    as one rejects. *)
Fixpoint all_resolved (rs : list resp) : option (list value) :=
  match rs with
  | [] => Some []
  | Resolved d :: r => option_map (cons d) (all_resolved r)
  | Rejected :: _ => None
  end.

Definition promise_all (rs : list resp) : resp :=
  match all_resolved rs with Some ds => Resolved (VArr ds) | None => Rejected end.

Inductive hobs (E : Type) := HOReq (r : hreq) | HOEv (e : E).

Arguments HOReq {E} r.
Arguments HOEv {E} e.

(** The observable run against a server; [Promise.all] issues all its
    requests before any settles. *)
Fixpoint hrun {E : Type} (srv : hreq -> resp) (p : hprog E) : list (hobs E) :=
  match p with
  | HDone => []
  | HDo e k => HOEv e :: hrun srv k
  | HAwait r k => HOReq r :: hrun srv (k (srv r))
  | HAwaitAll rs k => map HOReq rs ++ hrun srv (k (promise_all (map srv rs)))
  end.

Definition hevents {E : Type} (os : list (hobs E)) : list E :=
  flat_map (fun o => match o with HOEv e => [e] | HOReq _ => [] end) os.

Definition hrequests {E : Type} (os : list (hobs E)) : list hreq :=
  flat_map (fun o => match o with HOReq r => [r] | HOEv _ => [] end) os.

(** UI effects of the student portal and the response page. *)
Inductive pevent :=
| PPreventDefault
| PToast (k : toast_kind) (msg : jsstr)
| PConsoleError (msg : jsstr)
| PSetState (name : jsstr) (v : value)
| PFetchData.

Section Portal.

Variable BACKEND_URL : jsstr.

(** *** StudentPortal: [fetchData] *)
Definition fetchData : hprog pevent :=
  PSetState (lit "loading") (VBool true) ;>
  HAwaitAll [HReq GET (API BACKEND_URL ++ lit "/students") None;
             HReq GET (API BACKEND_URL ++ lit "/cases") None]
    (fun r => match r with
     | Resolved (VArr [studentsData; casesData]) =>
         PSetState (lit "students") studentsData ;>
         PSetState (lit "cases") casesData ;>
         PSetState (lit "loading") (VBool false) ;> HDone
     | _ =>
         PConsoleError (lit "Error fetching data:") ;>
         PToast ToastError (lit "Failed to load data") ;>
         PSetState (lit "loading") (VBool false) ;> HDone
     end).

(** *** StudentPortal: [handleSeedData] *)
Definition handleSeedData : hprog pevent :=
  HAwait (HReq POST (API BACKEND_URL ++ lit "/seed") None)
    (fun r => match r with
     | Resolved _ =>
         PToast ToastSuccess (lit "Sample data loaded successfully!") ;>
         PFetchData ;> HDone
     | Rejected => PToast ToastError (lit "Failed to seed data") ;> HDone
     end).

(** *** StudentPortal: [handleDeleteStudent]

    [confirmed] is what [window.confirm(...)] returned. *)
Definition handleDeleteStudent (confirmed : bool) (studentId : option value)
  : hprog pevent :=
  if negb confirmed then HDone
  else
    HAwait (HReq DELETE (API BACKEND_URL ++ lit "/students/" ++ opt_to_js_string studentId) None)
      (fun r => match r with
       | Resolved _ => PToast ToastSuccess (lit "Student deleted") ;> PFetchData ;> HDone
       | Rejected => PToast ToastError (lit "Failed to delete student") ;> HDone
       end).

(** *** StudentPortal: [handleAddCase] *)
Definition empty_case : value :=
  VObj [(lit "title", VStr []); (lit "description", VStr []);
        (lit "category", VStr (lit "consumer"))].

Definition handleAddCase (newCase : value) : hprog pevent :=
  PPreventDefault ;>
  HAwait (HReq POST (API BACKEND_URL ++ lit "/cases") (Some newCase))
    (fun r => match r with
     | Resolved _ =>
         PToast ToastSuccess (lit "Case added successfully!") ;>
         PSetState (lit "caseDialogOpen") (VBool false) ;>
         PSetState (lit "newCase") empty_case ;>
         PFetchData ;> HDone
     | Rejected => PToast ToastError (lit "Failed to add case") ;> HDone
     end).

(** *** StudentPortal: [handleAssignCase] *)
Definition handleAssignCase (caseId : option value) (studentId : value) : hprog pevent :=
  HAwait (HReq PATCH (API BACKEND_URL ++ lit "/cases/" ++ opt_to_js_string caseId)
            (Some (VObj [(lit "assigned_student_id", studentId);
                         (lit "status", VStr (lit "assigned"))])))
    (fun r => match r with
     | Resolved _ =>
         PToast ToastSuccess (lit "Case assigned successfully!") ;> PFetchData ;> HDone
     | Rejected => PToast ToastError (lit "Failed to assign case") ;> HDone
     end).

(** *** StudentPortal: [handleDeleteCase] *)
Definition handleDeleteCase (confirmed : bool) (caseId : option value) : hprog pevent :=
  if negb confirmed then HDone
  else
    HAwait (HReq DELETE (API BACKEND_URL ++ lit "/cases/" ++ opt_to_js_string caseId) None)
      (fun r => match r with
       | Resolved _ => PToast ToastSuccess (lit "Case deleted") ;> PFetchData ;> HDone
       | Rejected => PToast ToastError (lit "Failed to delete case") ;> HDone
       end).

(** *** ResponsePage: the [fetchQuery] effect

    [queryId] is the route parameter of [/response/:queryId]. *)
Definition fetchQuery_effect (queryId : jsstr) : hprog pevent :=
  if negb (str_truthy queryId) then HDone
  else
    HAwait (HReq GET (API BACKEND_URL ++ lit "/queries/" ++ queryId) None)
      (fun r => match r with
       | Resolved data =>
           PSetState (lit "query") data ;>
           PSetState (lit "loading") (VBool false) ;> HDone
       | Rejected =>
           PConsoleError (lit "Error fetching query:") ;>
           PSetState (lit "error") (VStr (lit "Failed to load query response")) ;>
           PSetState (lit "loading") (VBool false) ;> HDone
       end).

End Portal.

(** *** ResponsePage: what the page shows *)

Record rp_state := { rp_query : value; rp_loading : value; rp_error : value }.

(** [useState(null)], [useState(true)], [useState(null)] *)
Definition rp_init : rp_state :=
  {| rp_query := VNull; rp_loading := VBool true; rp_error := VNull |}.

Definition rp_apply (st : rp_state) (e : pevent) : rp_state :=
  match e with
  | PSetState n v =>
      if jsstr_eqb n (lit "query") then
        {| rp_query := v; rp_loading := rp_loading st; rp_error := rp_error st |}
      else if jsstr_eqb n (lit "loading") then
        {| rp_query := rp_query st; rp_loading := v; rp_error := rp_error st |}
      else if jsstr_eqb n (lit "error") then
        {| rp_query := rp_query st; rp_loading := rp_loading st; rp_error := v |}
      else st
  | _ => st
  end.

(** [a || b] on values. *)
Definition value_or (a b : value) : value := if value_truthy a then a else b.

Inductive rp_view :=
| RPLoading
| RPNotFound (msg : value)
| RPResponse (query : value).

Definition ResponsePage_view (st : rp_state) : rp_view :=
  if value_truthy (rp_loading st) then RPLoading
  else if value_truthy (rp_error st) || negb (value_truthy (rp_query st)) then
    RPNotFound (value_or (rp_error st) (VStr (lit "The requested query could not be found.")))
  else RPResponse (rp_query st).

(** *** StudentPortal: the "Assigned To" cell of the case table

    The [students] state holds the student objects of the [GET] response. *)

(** [a === b] on property reads of parsed JSON; objects and arrays of two
    different responses are never the same reference. *)
Definition strict_eq (a b : option value) : bool :=
  match a, b with
  | None, None => true
  | Some VNull, Some VNull => true
  | Some (VBool x), Some (VBool y) => Bool.eqb x y
  | Some (VNum x), Some (VNum y) => Z.eqb x y
  | Some (VStr x), Some (VStr y) => jsstr_eqb x y
  | _, _ => false
  end.

Inductive assign_cell :=
| CellSelect (items : list (option value * option value))
| CellText (v : value).

(** An open case offers a [Select] with one item [(s.id, s.name)] per
    student; any other case shows
    [students.find(s => s.id === caseItem.assigned_student_id)?.name || '-']. *)
Definition assignment_cell (students : list (list (jsstr * value)))
    (caseItem : list (jsstr * value)) : assign_cell :=
  if strict_eq (field caseItem (lit "status")) (Some (VStr (lit "open"))) then
    CellSelect (map (fun s => (field s (lit "id"), field s (lit "name"))) students)
  else
    CellText (opt_or (match find (fun s => strict_eq (field s (lit "id"))
                                          (field caseItem (lit "assigned_student_id")))
                               students with
                      | Some s => field s (lit "name")
                      | None => None
                      end)
                     (VStr (lit "-"))).

(** *** DocumentsPage: [handleDownload] *)

Inductive dl_event :=
| DCreateObjectURL (u : url)
| DAppendAnchor (href : url) (download : jsstr)
| DClickAnchor
| DRemoveAnchor
| DRevokeObjectURL (u : url)
| DToast (k : toast_kind) (msg : jsstr).

(** The bytes of [new Blob([x])] for a property read: [undefined] is
    converted to the text "undefined". *)
Definition blob_part (v : option value) : list Z :=
  match v with None => utf8 (lit "undefined") | Some v => blob_bytes v end.

(** [generatedDoc] is the state ([VNull] while [null]); [now] is
    [Date.now()]. *)
Definition handleDownload (generatedDoc : value) (docType language : jsstr) (now : Z)
  : list dl_event :=
  if negb (value_truthy generatedDoc) then []
  else
    let content := match generatedDoc with
                   | VObj fs => field fs (lit "content")
                   | _ => None
                   end in
    let u := BlobURL (blob_part content) (lit "text/plain") in
    [DCreateObjectURL u;
     DAppendAnchor u (docType ++ lit "_" ++ language ++ lit "_" ++ Z_to_dec now ++ lit ".txt");
     DClickAnchor;
     DRemoveAnchor;
     DRevokeObjectURL u;
     DToast ToastSuccess (lit "Document downloaded!")].

(** *** Navbar: the highlighted link *)

Definition navLinks : list (jsstr * jsstr) :=
  [(lit "/", lit "Home"); (lit "/query", lit "Legal Query");
   (lit "/students", lit "Student Portal"); (lit "/documents", lit "Documents")].

(** [isActive = (path) => location.pathname === path] *)
Definition isActive (pathname path : jsstr) : bool := jsstr_eqb pathname path.

(** Which links of [navLinks] get the active class. *)
Definition nav_active (pathname : jsstr) : list bool :=
  map (fun link => isActive pathname (fst link)) navLinks.

(** *** VoiceRecorder: [processAudio] *)

Inductive vevent :=
| VConsoleLog (msg : jsstr)
| VConsoleError (msg : jsstr)
| VToast (k : toast_kind) (msg : jsstr)
(** [toast.error(`Failed to process audio: ${error.message}`)] *)
| VToastProcessFailed
(** [onTranscript(query_text)] *)
| VTranscript (text : option value)
(** [onVoiceResponse({ query_text, language: detectedLang, answer })] *)
| VVoiceResponse (response : list (jsstr * option value))
| VSetProcessing (b : bool).

Section Voice.

Variable BACKEND_URL : jsstr.

(** The [FormData]: the recorded blob (sent as [recording.webm]) and the
    selected language. *)
Definition voice_form (language : jsstr) (audioBlob : list Z) : value :=
  VObj [(lit "audio_file", VBlob audioBlob); (lit "language", VStr language)].

(** [hasVoiceResponse] tells whether the [onVoiceResponse] prop is given;
    [const { query_text, language: detectedLang, answer } = result] throws
    on [null] like a property read. *)
Definition processAudio (hasVoiceResponse : bool) (language : jsstr) (audioBlob : list Z)
  : hprog vevent :=
  let finish := VSetProcessing false ;> HDone in
  let failed :=
    VConsoleError (lit "Error processing audio:") ;> VToastProcessFailed ;> finish in
  HAwait (HReq POST (API BACKEND_URL ++ lit "/voice-query") (Some (voice_form language audioBlob)))
    (fun r => match r with
     | Resolved result =>
         match read_prop result (lit "query_text"), read_prop result (lit "language"),
               read_prop result (lit "answer") with
         | PropVal query_text, PropVal detectedLang, PropVal answer =>
             VConsoleLog (lit "Voice query result:") ;>
             if opt_truthy query_text then
               VTranscript query_text ;>
               (if hasVoiceResponse then
                  VVoiceResponse [(lit "query_text", query_text);
                                  (lit "language", detectedLang);
                                  (lit "answer", answer)] ;>
                  VToast ToastSuccess (lit "Voice processed successfully!") ;> finish
                else VToast ToastSuccess (lit "Voice processed successfully!") ;> finish)
             else VToast ToastError (lit "No speech detected. Please try again.") ;> finish
         | _, _, _ => failed
         end
     | Rejected => failed
     end).

End Voice.

(** The object handed to [onVoiceResponse] as the JSON-like record the
    query page reads: an [undefined] property is absent. *)
Definition defined_fields (fs : list (jsstr * option value)) : list (jsstr * value) :=
  flat_map (fun '(k, v) => match v with Some v => [(k, v)] | None => [] end) fs.

(** *** VoiceRecorder as a state machine

    The component's state, the recorder reference and the pending
    asynchronous work.  [getUserMedia] may be pending several times: the
    Start button stays enabled until it resolves.  Each [MediaRecorder]
    gets a fresh number; [vr_stopping] holds the recorders whose [stop()]
    was called and whose [onstop] handler has not run yet, and
    [vr_inflight] counts the [processAudio] calls awaiting their POST. *)
Record recorder_state := {
  vr_recording : bool;
  vr_processing : bool;
  vr_supported : bool;
  vr_media_pending : nat;
  vr_ref : option nat;
  vr_next : nat;
  vr_stopping : list nat;
  vr_inflight : nat
}.

Definition vr_init : recorder_state :=
  {| vr_recording := false; vr_processing := false; vr_supported := true;
     vr_media_pending := 0; vr_ref := None; vr_next := 0;
     vr_stopping := []; vr_inflight := 0 |}.

(** The buttons are rendered only while [isSupported]. *)
Definition start_enabled (st : recorder_state) : bool :=
  vr_supported st && negb (vr_recording st || vr_processing st).

Definition stop_enabled (st : recorder_state) : bool :=
  vr_supported st && negb (negb (vr_recording st) || vr_processing st).

(** [stopRecording] *)
Definition stopRecording (st : recorder_state) : recorder_state :=
  match vr_ref st with
  | Some n =>
      if vr_recording st then
        {| vr_recording := false; vr_processing := true; vr_supported := vr_supported st;
           vr_media_pending := vr_media_pending st; vr_ref := vr_ref st;
           vr_next := vr_next st; vr_stopping := n :: vr_stopping st;
           vr_inflight := vr_inflight st |}
      else st
  | None => st
  end.

Inductive recorder_event :=
| RClickStart          (** [startRecording] up to [await getUserMedia] *)
| RMediaGranted        (** the rest of its [try] block *)
| RMediaFailed         (** its [catch] block *)
| RClickStop           (** [stopRecording] *)
| ROnStop              (** a stopped recorder's [onstop] reaches the POST *)
| RVoiceQuerySettled.  (** the POST settles; [finally] clears [isProcessing] *)

Section RecorderMachine.

Inductive rstep : recorder_state -> recorder_event -> recorder_state -> Prop :=
| rstep_start st :
    start_enabled st = true ->
    rstep st RClickStart
      {| vr_recording := vr_recording st; vr_processing := vr_processing st;
         vr_supported := vr_supported st; vr_media_pending := S (vr_media_pending st);
         vr_ref := vr_ref st; vr_next := vr_next st;
         vr_stopping := vr_stopping st; vr_inflight := vr_inflight st |}
| rstep_granted st p :
    vr_media_pending st = S p ->
    rstep st RMediaGranted
      {| vr_recording := true; vr_processing := vr_processing st;
         vr_supported := vr_supported st; vr_media_pending := p;
         vr_ref := Some (vr_next st); vr_next := S (vr_next st);
         vr_stopping := vr_stopping st; vr_inflight := vr_inflight st |}
| rstep_failed st p :
    vr_media_pending st = S p ->
    rstep st RMediaFailed
      {| vr_recording := vr_recording st; vr_processing := vr_processing st;
         vr_supported := false; vr_media_pending := p;
         vr_ref := vr_ref st; vr_next := vr_next st;
         vr_stopping := vr_stopping st; vr_inflight := vr_inflight st |}
| rstep_stop st :
    stop_enabled st = true ->
    rstep st RClickStop (stopRecording st)
| rstep_onstop st l1 n l2 :
    vr_stopping st = l1 ++ n :: l2 ->
    rstep st ROnStop
      {| vr_recording := vr_recording st; vr_processing := vr_processing st;
         vr_supported := vr_supported st; vr_media_pending := vr_media_pending st;
         vr_ref := vr_ref st; vr_next := vr_next st;
         vr_stopping := l1 ++ l2; vr_inflight := S (vr_inflight st) |}
| rstep_settled st i :
    vr_inflight st = S i ->
    rstep st RVoiceQuerySettled
      {| vr_recording := vr_recording st; vr_processing := false;
         vr_supported := vr_supported st; vr_media_pending := vr_media_pending st;
         vr_ref := vr_ref st; vr_next := vr_next st;
         vr_stopping := vr_stopping st; vr_inflight := i |}.

Inductive rreachable : recorder_state -> Prop :=
| rreach_init : rreachable vr_init
| rreach_step st ev st' : rreachable st -> rstep st ev st' -> rreachable st'.

End RecorderMachine.

(** ** Reading back a downloaded file

    A reader of a UTF-8 file decodes its bytes into code points; a
    JavaScript string holds them as UTF-16 code units.  The decoder below
    reads well-formed UTF-8, the output of [utf8]. *)

Fixpoint utf8_decode (bs : list Z) : list Z :=
  match bs with
  | [] => []
  | b0 :: r =>
      if b0 <? 128 then b0 :: utf8_decode r
      else if b0 <? 224 then
        match r with
        | b1 :: r1 => ((b0 - 192) * 64 + (b1 - 128)) :: utf8_decode r1
        | [] => [65533]
        end
      else if b0 <? 240 then
        match r with
        | b1 :: b2 :: r2 =>
            ((b0 - 224) * 4096 + (b1 - 128) * 64 + (b2 - 128)) :: utf8_decode r2
        | _ => [65533]
        end
      else
        match r with
        | b1 :: b2 :: b3 :: r3 =>
            ((b0 - 240) * 262144 + (b1 - 128) * 4096 + (b2 - 128) * 64 + (b3 - 128))
              :: utf8_decode r3
        | _ => [65533]
        end
  end.

Definition utf16_cp (c : Z) : list Z :=
  if c <? 65536 then [c]
  else [55296 + (c - 65536) / 1024; 56320 + (c - 65536) mod 1024].

Definition utf16 (cps : list Z) : jsstr := flat_map utf16_cp cps.

(** [String.prototype.toWellFormed]: lone surrogates become U+FFFD. *)
Fixpoint to_well_formed (s : jsstr) : jsstr :=
  match s with
  | [] => []
  | c :: r =>
      if is_high_surrogate c then
        match r with
        | d :: r' =>
            if is_low_surrogate d then c :: d :: to_well_formed r'
            else 65533 :: to_well_formed r
        | [] => [65533]
        end
      else if is_low_surrogate c then 65533 :: to_well_formed r
      else c :: to_well_formed r
  end.

Definition code_units (s : jsstr) : Prop := Forall (fun c => 0 <= c < 65536) s.

(** ** Auxiliary notions for the properties *)

(** The comma-separated segments of a string, in the reading of the
    specification: a non-empty list of comma-free pieces whose join with
    commas is the string. *)

Fixpoint join_sep (sep : Z) (segs : list jsstr) : jsstr :=
  match segs with
  | [] => []
  | [x] => x
  | x :: r => x ++ sep :: join_sep sep r
  end.

Definition sep_free (sep : Z) (seg : jsstr) : Prop := includes_unit seg sep = false.

Definition audio_plays (os : list obs) : list url :=
  flat_map (fun o => match o with OEv (EAudioPlay u) => [u] | _ => [] end) os.

(** The test [handleAddStudent] applies before posting. *)
Definition student_form_passes (s : student_form) : bool :=
  str_truthy (trim (sf_name s)) && str_truthy (trim (sf_email s))
  && includes_unit (sf_email s) at_sign && str_truthy (trim (sf_college s)).

(** Programs that await no request. *)
Fixpoint no_await (p : prog) : bool :=
  match p with
  | Done => true
  | Do _ k => no_await k
  | Await _ _ => false
  end.

(** At most one POST is in flight, and only while [isSubmitting] is set
    on the mounted page. *)
Definition qinv (st : qpage) : Prop :=
  qp_pending st = [] \/
  (qp_pending st = [handleSubmit_after_post] /\
   qp_submitting st = true /\ qp_mounted st = true).

Definition plays_server_blob (srv : req -> resp) (p : prog) : Prop :=
  forall u, In u (audio_plays (run srv p)) ->
  exists r data, srv r = Resolved data /\ u = BlobURL (blob_bytes data) (lit "audio/mpeg").

(** A portal handler that issues the single request [r] and triggers a
    refetch of the lists exactly when [r] resolves. *)
Definition refetch_iff_resolved (srv : hreq -> resp) (p : hprog pevent) (r : hreq) : Prop :=
  hrequests (hrun srv p) = [r] /\
  (In PFetchData (hevents (hrun srv p)) <-> exists d, srv r = Resolved d).

(** The voice recorder's invariant: at most one recording is stopped or
    awaiting its voice query, and none while [isProcessing] is clear. *)
Definition rinv (st : recorder_state) : Prop :=
  (List.length (vr_stopping st) + vr_inflight st <= 1)%nat /\
  (vr_processing st = false -> vr_stopping st = [] /\ vr_inflight st = 0%nat).

(** ** Submitting the add-student form

    [handleAddStudent] is only reached as the [onSubmit] handler of the
    add-student [<form>], whose name, email and college inputs are
    [required] and whose email input has [type="email"].  The browser runs
    its constraint validation before it fires [submit]: a [required] input
    with an empty value, or an email input whose value is not a "valid
    e-mail address" of the HTML standard, blocks the submission and shows
    the browser's validation message instead.  The state [sf_email] is the
    input's value, which the browser has already sanitised (line breaks
    and surrounding whitespace removed); [required] rejects only the empty
    value. *)

Definition is_alpha (c : Z) : bool :=
  ((65 <=? c) && (c <=? 90)) || ((97 <=? c) && (c <=? 122)).

Definition is_let_dig (c : Z) : bool := is_alpha c || is_digit c.

(** The characters of the local part: [[a-zA-Z0-9.!#$%&'*+/=?^_`{|}~-]]. *)
Definition is_local_char (c : Z) : bool :=
  is_let_dig c || existsb (Z.eqb c) (lit ".!#$%&'*+-/=?^_`{|}~").

(** A domain label: [[a-zA-Z0-9]([a-zA-Z0-9-]{0,61}[a-zA-Z0-9])?]. *)
Definition is_label (l : jsstr) : bool :=
  match l with
  | [] => false
  | c :: _ =>
      is_let_dig c && is_let_dig (last l 0)
      && forallb (fun c => is_let_dig c || Z.eqb c 45) l
      && (List.length l <=? 63)%nat
  end.

(** The HTML standard's valid e-mail address: a non-empty local part, one
    [@], and dot-separated labels. *)
Definition html_valid_email (e : jsstr) : bool :=
  match split_unit at_sign e with
  | [local; domain] =>
      str_truthy local && forallb is_local_char local
      && forallb is_label (split_unit 46 domain)
  | _ => false
  end.

(** Constraint validation of the add-student form. *)
Definition browser_blocks (s : student_form) : bool :=
  negb (str_truthy (sf_name s)) || negb (str_truthy (sf_email s))
  || negb (str_truthy (sf_college s)) || negb (html_valid_email (sf_email s)).

Inductive form_submission :=
| BrowserValidationMessage
| SubmitHandler (p : prog).

(** Pressing "Add Student": either the browser blocks the submission, or
    [submit] fires and runs [handleAddStudent]. *)
Definition submitStudentForm (backend : jsstr) (s : student_form) : form_submission :=
  if browser_blocks s then BrowserValidationMessage
  else SubmitHandler (handleAddStudent backend s).

(** * Properties *)


(** ** Strings *)

Lemma jsstr_eqb_spec (a b : jsstr) : jsstr_eqb a b = true <-> a = b.
Proof.
  revert b; induction a as [|x a IH]; intros [|y b]; simpl;
    try (split; congruence).
  rewrite andb_true_iff, Z.eqb_eq, IH; split.
  - intros [-> ->]; reflexivity.
  - intros H; injection H; auto.
Qed.

Lemma jsstr_eqb_refl (a : jsstr) : jsstr_eqb a a = true.
Proof. apply jsstr_eqb_spec; reflexivity. Qed.

Lemma trim_start_head (s : jsstr) :
  trim_start s = [] \/ exists c r, trim_start s = c :: r /\ is_ws c = false.
Proof.
  induction s as [|c s IH]; simpl; [now left|].
  destruct (is_ws c) eqn:Hc; [exact IH|right; eauto].
Qed.

Lemma trim_start_snoc (l : jsstr) (c : Z) :
  is_ws c = false -> exists m, trim_start (l ++ [c]) = m ++ [c].
Proof.
  intros Hc; induction l as [|a l IH]; simpl.
  - rewrite Hc; exists []; reflexivity.
  - destruct (is_ws a); [exact IH|].
    exists (a :: l); reflexivity.
Qed.

Lemma last_rev (l : jsstr) (d : Z) : last (rev l) d = hd d l.
Proof.
  destruct l as [|a l]; [reflexivity|].
  simpl; apply last_last.
Qed.

(** A non-empty result of [trim] starts and ends with a non-whitespace
    code unit. *)
Lemma trim_edges (s : jsstr) :
  trim s <> [] -> is_ws (hd 0 (trim s)) = false /\ is_ws (last (trim s) 0) = false.
Proof.
  unfold trim, trim_end.
  destruct (trim_start_head s) as [E|(c & r & E & Hc)]; rewrite E.
  - simpl; congruence.
  - intros Hne; split.
    + simpl. destruct (trim_start_snoc (rev r) c Hc) as [m Hm].
      rewrite Hm, rev_app_distr; exact Hc.
    + rewrite last_rev.
      destruct (trim_start_head (rev (c :: r))) as [E'|(c' & r' & E' & Hc')];
        rewrite E' in *; [contradiction|exact Hc'].
Qed.


(** ** Splitting on a separator *)

Lemma split_unit_not_nil (sep : Z) (s : jsstr) : split_unit sep s <> [].
Proof.
  destruct s as [|c s]; simpl; [discriminate|].
  destruct (Z.eqb c sep); [discriminate|].
  destruct (split_unit sep s); discriminate.
Qed.

Lemma join_sep_cons (sep c : Z) (x : jsstr) (r : list jsstr) :
  join_sep sep ((c :: x) :: r) = c :: join_sep sep (x :: r).
Proof. destruct r; reflexivity. Qed.

Lemma join_split (sep : Z) (s : jsstr) : join_sep sep (split_unit sep s) = s.
Proof.
  induction s as [|c s IH]; [reflexivity|]; simpl.
  destruct (Z.eqb c sep) eqn:Hc.
  - apply Z.eqb_eq in Hc; subst c.
    destruct (split_unit sep s) eqn:E; [now destruct (split_unit_not_nil sep s)|].
    simpl; rewrite <- IH; reflexivity.
  - destruct (split_unit sep s) as [|seg rest] eqn:E;
      [now destruct (split_unit_not_nil sep s)|].
    rewrite join_sep_cons, IH; reflexivity.
Qed.

Lemma split_sep_free (sep : Z) (s : jsstr) : Forall (sep_free sep) (split_unit sep s).
Proof.
  unfold sep_free; induction s as [|c s IH]; simpl.
  - constructor; [reflexivity|constructor].
  - destruct (Z.eqb c sep) eqn:Hc.
    + constructor; [reflexivity|exact IH].
    + destruct (split_unit sep s) as [|seg rest]; [constructor; [simpl; rewrite Z.eqb_sym, Hc; reflexivity|constructor]|].
      inversion IH as [|? ? Hseg Hrest]; subst.
      constructor; [|exact Hrest].
      simpl; rewrite Z.eqb_sym, Hc, Hseg; reflexivity.
Qed.

Lemma split_free (sep : Z) (x : jsstr) : sep_free sep x -> split_unit sep x = [x].
Proof.
  unfold sep_free; induction x as [|c x IH]; [reflexivity|]; simpl.
  intros H; apply orb_false_iff in H as [Hc Hx].
  rewrite Z.eqb_sym, Hc, (IH Hx); reflexivity.
Qed.

Lemma split_app (sep : Z) (x t : jsstr) :
  sep_free sep x -> split_unit sep (x ++ sep :: t) = x :: split_unit sep t.
Proof.
  unfold sep_free; induction x as [|c x IH]; simpl.
  - rewrite Z.eqb_refl; reflexivity.
  - intros H; apply orb_false_iff in H as [Hc Hx].
    rewrite Z.eqb_sym, Hc, (IH Hx); reflexivity.
Qed.

(** The segments are unique. *)
Lemma split_unique (sep : Z) (segs : list jsstr) :
  segs <> [] -> Forall (sep_free sep) segs ->
  split_unit sep (join_sep sep segs) = segs.
Proof.
  induction segs as [|x r IH]; [congruence|]; intros _ Hall.
  inversion Hall as [|? ? Hx Hr]; subst.
  destruct r as [|y r].
  - apply split_free, Hx.
  - change (join_sep sep (x :: y :: r)) with (x ++ sep :: join_sep sep (y :: r)).
    rewrite split_app by exact Hx.
    rewrite IH by (discriminate || exact Hr); reflexivity.
Qed.

(** ** Lookup tables *)

Lemma obj_get_absent (tbl : list (jsstr * jsstr)) (k : jsstr) :
  in_keys k (map fst tbl) = false -> obj_get tbl k = proto_get k.
Proof.
  induction tbl as [|[k' v] tbl IH]; simpl; [reflexivity|].
  intros H; apply orb_false_iff in H as [H1 H2].
  rewrite H1; exact (IH H2).
Qed.

Lemma in_keys_true (k : jsstr) (ks : list jsstr) : in_keys k ks = true -> In k ks.
Proof.
  unfold in_keys; rewrite existsb_exists.
  intros (k' & Hin & Heq); apply jsstr_eqb_spec in Heq; subst; exact Hin.
Qed.

(** Off [Object.prototype], the style lookups behave as the spec says:
    known keys map to their class, every other key to the default. *)
Lemma style_lookups_off_prototype (c : jsstr) :
  proto_get c = JUndefined ->
  (in_keys c known_categories = true -> getCategoryStyle c = JStr (lit "category-" ++ c)) /\
  (in_keys c known_categories = false -> getCategoryStyle c = JStr (lit "category-general")) /\
  (in_keys c known_statuses = true -> getStatusStyle c = JStr (lit "status-" ++ c)) /\
  (in_keys c known_statuses = false -> getStatusStyle c = JStr (lit "status-open")).
Proof.
  intros Hp; repeat split; intros H.
  - apply in_keys_true in H; simpl in H.
    repeat (destruct H as [<-|H]; [reflexivity|]); contradiction.
  - unfold getCategoryStyle; rewrite (obj_get_absent category_styles c H), Hp; reflexivity.
  - apply in_keys_true in H; simpl in H.
    repeat (destruct H as [<-|H]; [reflexivity|]); contradiction.
  - unfold getStatusStyle; rewrite (obj_get_absent status_styles c H), Hp; reflexivity.
Qed.

(** Off [Object.prototype], the label lookups are the identity on
    unknown keys. *)
Lemma label_lookups_off_prototype (c : jsstr) :
  proto_get c = JUndefined ->
  (in_keys c known_categories = false -> getCategoryLabel c = JStr c) /\
  (in_keys c known_languages = false -> getLanguageLabel c = JStr c).
Proof.
  intros Hp; split; intros H.
  - unfold getCategoryLabel; rewrite (obj_get_absent category_labels c H), Hp; reflexivity.
  - unfold getLanguageLabel; rewrite (obj_get_absent language_labels c H), Hp; reflexivity.
Qed.

(** ** Student skills *)

Lemma filter_trim_edges (segs : list jsstr) :
  Forall (fun e => e <> [] /\ is_ws (hd 0 e) = false /\ is_ws (last e 0) = false)
         (filter str_truthy (map trim segs)).
Proof.
  apply Forall_forall; intros e He.
  apply filter_In in He as [Hin Ht].
  apply in_map_iff in Hin as (seg & <- & _).
  assert (Hne : trim seg <> []) by (intros E; rewrite E in Ht; discriminate).
  split; [exact Hne|apply trim_edges, Hne].
Qed.

(** ** Form fields *)

Lemma obj_get_cases (d : list (jsstr * jsstr)) (k : jsstr) :
  (exists v, obj_get d k = JStr v /\ details_get d k = Some v) \/
  (obj_get d k = proto_get k /\ details_get d k = None
   /\ (proto_get k = JUndefined -> truthy (obj_get d k) = false)).
Proof.
  unfold details_get; induction d as [|[k' v] d IH]; simpl.
  - right; split; [reflexivity|split].
    + unfold proto_get.
      destruct (jsstr_eqb k (lit "constructor")); [reflexivity|].
      destruct (jsstr_eqb k (lit "__proto__")); [reflexivity|].
      destruct (in_keys k object_prototype_methods); reflexivity.
    + intros ->; reflexivity.
  - destruct (jsstr_eqb k k'); [left; eauto|exact IH].
Qed.

(** A field that [Object.prototype] does not have is truthy exactly when
    it is an own non-empty string. *)
Lemma field_truthy (d : details_t) (k : jsstr) :
  proto_get k = JUndefined ->
  truthy (obj_get d k) = true <-> exists v, details_get d k = Some v /\ v <> [].
Proof.
  intros Hp; destruct (obj_get_cases d k) as [(v & E1 & E2)|(E1 & E2 & E3)].
  - rewrite E1, E2; simpl; split.
    + intros H; exists v; split; [reflexivity|intros ->; discriminate].
    + intros (v' & Hv & Hne); injection Hv as <-; destruct v; [congruence|reflexivity].
  - rewrite (E3 Hp), E2; split; [discriminate|intros (v & Hv & _); discriminate].
Qed.




(** ** C1 *)

(** What [handleAddStudent] does on its own: it posts the student to
    [/api/students] exactly when the trimmed name, email and college are
    non-empty and the email contains an [@]; otherwise it shows one error
    toast and makes no request. *)
Lemma handleAddStudent_checks (backend : jsstr) (s : student_form) :
  first_request (handleAddStudent backend s) =
    (if student_form_passes s
     then Some (Post (API backend ++ lit "/students") (student_body s) RTJson)
     else None) /\
  (student_form_passes s = false ->
   exists msg, forall srv,
     run srv (handleAddStudent backend s) =
       [OEv EPreventDefault; OEv (EToast ToastError msg)]).
Proof.
  unfold handleAddStudent, student_form_passes.
  destruct (str_truthy (trim (sf_name s))), (str_truthy (trim (sf_email s))),
    (includes_unit (sf_email s) at_sign), (str_truthy (trim (sf_college s)));
    simpl; split; try reflexivity; try discriminate; intros _; eexists; reflexivity.
Qed.

Lemma html_valid_email_at (e : jsstr) :
  html_valid_email e = true -> includes_unit e at_sign = true.
Proof.
  unfold html_valid_email. intros H.
  destruct (split_unit at_sign e) as [|l [|d [|x r]]] eqn:S; try discriminate.
  rewrite <- (join_split at_sign e), S. cbn [join_sep].
  unfold includes_unit. rewrite existsb_app. cbn [existsb].
  rewrite Z.eqb_refl, orb_true_r. reflexivity.
Qed.

Lemma trim_truthy (x : jsstr) : str_truthy (trim x) = true -> str_truthy x = true.
Proof. destruct x; [discriminate|reflexivity]. Qed.

(** C1: submitting the add-student form posts the student to
    [/api/students] exactly when the trimmed name, email and college are
    non-empty and the email is a valid address (the regular-expression
    check of [type="email"]); when a check fails, an error message is
    shown (the browser's validation message or the handler's toast) and no
    request is made. *)
Theorem student_form_validation (backend : jsstr) (s : student_form) :
  (str_truthy (trim (sf_name s)) && str_truthy (trim (sf_email s))
   && str_truthy (trim (sf_college s)) && html_valid_email (sf_email s) = true ->
   exists p, submitStudentForm backend s = SubmitHandler p /\
     first_request p = Some (Post (API backend ++ lit "/students") (student_body s) RTJson)) /\
  (str_truthy (trim (sf_name s)) && str_truthy (trim (sf_email s))
   && str_truthy (trim (sf_college s)) && html_valid_email (sf_email s) = false ->
   submitStudentForm backend s = BrowserValidationMessage \/
   exists msg p, submitStudentForm backend s = SubmitHandler p /\
     first_request p = None /\
     forall srv, run srv p = [OEv EPreventDefault; OEv (EToast ToastError msg)]).
Proof.
  destruct (handleAddStudent_checks backend s) as [Hfirst Hrun].
  unfold submitStudentForm, browser_blocks. split.
  - intros H. repeat rewrite andb_true_iff in H. destruct H as [[[Hn He] Hc] Hv].
    rewrite (trim_truthy _ Hn), (trim_truthy _ He), (trim_truthy _ Hc), Hv. cbn.
    eexists. split; [reflexivity|]. rewrite Hfirst.
    unfold student_form_passes. rewrite Hn, He, Hc, (html_valid_email_at _ Hv). reflexivity.
  - intros H.
    destruct (negb (str_truthy (sf_name s)) || negb (str_truthy (sf_email s))
              || negb (str_truthy (sf_college s)) || negb (html_valid_email (sf_email s))) eqn:B;
      [left; reflexivity|right].
    repeat rewrite orb_false_iff in B. destruct B as [[[_ _] _] Hv].
    apply negb_false_iff in Hv.
    assert (P : student_form_passes s = false).
    { unfold student_form_passes. rewrite (html_valid_email_at _ Hv), andb_true_r.
      rewrite Hv, andb_true_r in H. exact H. }
    destruct (Hrun P) as [msg Hm]. exists msg, (handleAddStudent backend s).
    split; [reflexivity|]. split; [rewrite Hfirst, P; reflexivity | exact Hm].
Qed.

(** ** C2 *)

(** C2 (code defect): keys inherited from [Object.prototype] bypass the
    default of the style lookups: ["constructor"] and ["toString"] are not
    known categories or statuses, yet the lookups return functions. *)
Theorem style_lookups_inherited_keys :
  in_keys (lit "constructor") known_categories = false /\
  getCategoryStyle (lit "constructor") = JFun (lit "Object") /\
  in_keys (lit "toString") known_statuses = false /\
  getStatusStyle (lit "toString") = JFun (lit "toString").
Proof. repeat split. Qed.

(** ** C3 *)

(** C3: [handleSubmit] posts [{query_text, language}] to [/api/queries]
    exactly when the trimmed query is non-empty; an empty or blank query
    gets an error toast and no request; when the server answers with an
    object carrying a string [id], the page navigates to
    [/response/<id>]. *)
Theorem handleSubmit_spec (backend queryText language : jsstr) :
  first_request (handleSubmit backend queryText language) =
    (if str_truthy (trim queryText)
     then Some (Post (API backend ++ lit "/queries")
                     (VObj [(lit "query_text", VStr queryText);
                            (lit "language", VStr language)]) RTJson)
     else None) /\
  (str_truthy (trim queryText) = false -> forall srv,
     run srv (handleSubmit backend queryText language) =
       [OEv EPreventDefault;
        OEv (EToast ToastError (lit "Please enter your legal query"))]) /\
  (forall srv fs id,
     str_truthy (trim queryText) = true ->
     srv (Post (API backend ++ lit "/queries") (query_body queryText language) RTJson)
       = Resolved (VObj fs) ->
     field fs (lit "id") = Some (VStr id) ->
     In (OEv (ENavigate (lit "/response/" ++ id)))
        (run srv (handleSubmit backend queryText language))).
Proof.
  unfold handleSubmit.
  destruct (str_truthy (trim queryText)) eqn:Ht; simpl.
  - split; [reflexivity|split; [discriminate|]].
    intros srv fs id _ Hsrv Hid.
    rewrite Hsrv; unfold handleSubmit_after_post; simpl; rewrite Hid; simpl.
    right; right; right; right; left; reflexivity.
  - split; [reflexivity|split; [reflexivity|discriminate]].
Qed.

(** ** C5 *)

(** C5: [handleGenerateDocument] posts to [/api/documents] exactly when
    the selected form (FIR details for docType ['FIR'], RTI details
    otherwise) has a non-empty name and a non-empty address; otherwise it
    shows one error toast and does nothing else, so [generatedDoc] keeps
    its value. *)
Theorem handleGenerateDocument_validation (backend docType language : jsstr)
    (firDetails rtiDetails : details_t) (now_iso : jsstr) :
  let details := if jsstr_eqb docType (lit "FIR") then firDetails else rtiDetails in
  let filled := (exists n, details_get details (lit "name") = Some n /\ n <> []) /\
                (exists a, details_get details (lit "address") = Some a /\ a <> []) in
  let p := handleGenerateDocument backend docType language firDetails rtiDetails now_iso in
  (first_request p <> None <-> filled) /\
  (forall r, first_request p = Some r -> req_url r = API backend ++ lit "/documents") /\
  (~ filled -> forall srv,
     run srv p = [OEv (EToast ToastError (lit "Please fill in at least your name and address"))]).
Proof.
  intros details filled p.
  assert (Hn := field_truthy details (lit "name") eq_refl).
  assert (Ha := field_truthy details (lit "address") eq_refl).
  unfold p, handleGenerateDocument; fold details.
  destruct (truthy (obj_get details (lit "name"))) eqn:En,
           (truthy (obj_get details (lit "address"))) eqn:Ea; simpl.
  - assert (Hf : filled) by (split; [apply Hn|apply Ha]; reflexivity).
    destruct (obj_get_cases details (lit "address")) as [(a & Eg & _)|(_ & _ & E3)];
      [|rewrite (E3 eq_refl) in Ea; discriminate].
    unfold document_body; rewrite Eg; simpl.
    split; [split; [intros _; exact Hf|discriminate]|].
    split; [intros r Hr; injection Hr as <-; reflexivity|].
    intros Hnf; contradiction.
  - assert (Hf : ~ filled) by (intros [_ Hx]; apply Ha in Hx; discriminate).
    split; [split; [congruence|contradiction]|split; [discriminate|reflexivity]].
  - assert (Hf : ~ filled) by (intros [Hx _]; apply Hn in Hx; discriminate).
    split; [split; [congruence|contradiction]|split; [discriminate|reflexivity]].
  - assert (Hf : ~ filled) by (intros [Hx _]; apply Hn in Hx; discriminate).
    split; [split; [congruence|contradiction]|split; [discriminate|reflexivity]].
Qed.

(** ** C9 *)

(** C9 (code defect): keys inherited from [Object.prototype] bypass the
    identity fallback of the label lookups: ["toString"] is no known
    category and ["constructor"] no known language code, yet the lookups
    return functions instead of their input. *)
Theorem label_lookups_inherited_keys :
  in_keys (lit "toString") known_categories = false /\
  getCategoryLabel (lit "toString") = JFun (lit "toString") /\
  in_keys (lit "constructor") known_languages = false /\
  getLanguageLabel (lit "constructor") = JFun (lit "Object").
Proof. repeat split. Qed.

(** ** C10 *)

(** C10: the posted skills are the comma-separated segments of the input
    (the unique non-empty list of comma-free pieces whose comma-join is
    the input), each trimmed, with the empty ones dropped; so no posted
    skill is empty or starts or ends with whitespace. *)
Theorem skillsArray_trimmed_segments (skills : jsstr) :
  let segs := split_unit comma skills in
  segs <> [] /\ join_sep comma segs = skills /\ Forall (sep_free comma) segs /\
  (forall segs', segs' <> [] -> join_sep comma segs' = skills ->
                 Forall (sep_free comma) segs' -> segs' = segs) /\
  skillsArray skills = filter str_truthy (map trim segs) /\
  Forall (fun e => e <> [] /\ is_ws (hd 0 e) = false /\ is_ws (last e 0) = false)
         (skillsArray skills).
Proof.
  intros segs.
  split; [apply split_unit_not_nil|].
  split; [apply join_split|].
  split; [apply split_sep_free|].
  split.
  - intros segs' Hne Hj Hf; unfold segs; rewrite <- Hj.
    symmetry; apply split_unique; assumption.
  - split; [reflexivity|apply filter_trim_edges].
Qed.

(** ** C4: the query page *)


Lemma apply_event_requests (e : event) (st : qpage) :
  qp_pending (apply_event e st) = qp_pending st /\
  qp_posts (apply_event e st) = qp_posts st.
Proof.
  destruct e as [| | |name v| | | |]; simpl; try (split; reflexivity).
  destruct v; try (split; reflexivity).
  destruct (qp_mounted st && _); split; reflexivity.
Qed.

Lemma settle_no_await (p : prog) (st : qpage) :
  no_await p = true ->
  qp_pending (settle p st) = qp_pending st /\ qp_posts (settle p st) = qp_posts st.
Proof.
  revert st; induction p as [|e k IH|r k IH]; simpl; intros st H;
    [split; reflexivity| |discriminate].
  destruct (IH (apply_event e st) H) as [-> ->].
  apply apply_event_requests.
Qed.

Lemma handleSubmit_after_post_no_await (r : resp) :
  no_await (handleSubmit_after_post r) = true.
Proof.
  destruct r as [data|]; unfold handleSubmit_after_post; [|reflexivity].
  destruct (read_prop data (lit "id")); reflexivity.
Qed.


Lemma qinv_init : qinv qp_init.
Proof. left; reflexivity. Qed.

Lemma qinv_submit_idle (st : qpage) :
  qinv st -> submit_enabled st = true -> qp_pending st = [].
Proof.
  unfold submit_enabled; intros [H|(_ & Hs & _)] Hen; [exact H|].
  rewrite Hs in Hen; discriminate.
Qed.

Lemma qinv_step (backend : jsstr) (st : qpage) (ev : qevent) (st' : qpage) :
  qinv st -> qstep backend st ev st' -> qinv st'.
Proof.
  intros Hinv Hstep; destruct Hstep as [st t Hm|st l Hm|st Hm Hen|st l1 k l2 r Hp].
  - exact Hinv.
  - exact Hinv.
  - assert (Hidle := qinv_submit_idle st Hinv Hen).
    unfold submit_enabled in Hen.
    destruct (qp_submitting st), (str_truthy (trim (qp_text st))) eqn:Ht;
      try discriminate.
    unfold handleSubmit; rewrite Ht; simpl; rewrite Hm; simpl.
    right; simpl; rewrite Hidle; auto.
  - left.
    destruct Hinv as [H|(H & _ & _)]; rewrite H in Hp.
    + destruct l1; discriminate.
    + destruct l1 as [|x l1]; simpl in Hp.
      * injection Hp as <- <-.
        rewrite (proj1 (settle_no_await _ _ (handleSubmit_after_post_no_await r))).
        reflexivity.
      * injection Hp as _ Hp; destruct l1; discriminate.
Qed.

Lemma qreachable_qinv (backend : jsstr) (st : qpage) :
  qreachable backend st -> qinv st.
Proof.
  induction 1 as [|st ev st' _ IH Hstep]; [apply qinv_init|].
  exact (qinv_step backend st ev st' IH Hstep).
Qed.

Lemma qinv_length (st : qpage) : qinv st -> (List.length (qp_pending st) <= 1)%nat.
Proof. intros [H|(H & _)]; rewrite H; simpl; lia. Qed.

(** C4: on every reachable state of the query page at most one POST to
    [/api/queries] is in flight, and a step that starts a POST starts it
    from a state with none in flight: the submit button is disabled while
    [isSubmitting] is set, and [isSubmitting] is set before the request
    and cleared only after its response. *)
Theorem query_page_single_post_in_flight (backend : jsstr) (st : qpage)
    (ev : qevent) (st' : qpage) :
  qreachable backend st -> qstep backend st ev st' ->
  (List.length (qp_pending st) <= 1)%nat /\ (List.length (qp_pending st') <= 1)%nat /\
  ((List.length (qp_posts st) < List.length (qp_posts st'))%nat -> qp_pending st = []).
Proof.
  intros Hr Hs.
  assert (Hinv := qreachable_qinv backend st Hr).
  split; [apply qinv_length, Hinv|].
  split; [apply qinv_length, (qinv_step backend st ev st' Hinv Hs)|].
  intros Hlt; destruct Hs as [st t Hm|st l Hm|st Hm Hen|st l1 k l2 r Hp].
  - simpl in Hlt; lia.
  - simpl in Hlt; lia.
  - exact (qinv_submit_idle st Hinv Hen).
  - exfalso.
    destruct Hinv as [H|(H & _ & _)]; rewrite H in Hp; [destruct l1; discriminate|].
    destruct l1 as [|x l1]; simpl in Hp.
    + injection Hp as <- <-.
      rewrite (proj2 (settle_no_await _ _ (handleSubmit_after_post_no_await r))) in Hlt.
      simpl in Hlt; lia.
    + injection Hp as _ Hp; destruct l1; discriminate.
Qed.

Lemma query_page_single_post_in_flight_witness :
  qreachable [] (set_text (lit "abc") qp_init) /\
  qstep [] (set_text (lit "abc") qp_init) QClickSubmit
    (settle (handleSubmit [] (lit "abc") (lit "en")) (set_text (lit "abc") qp_init)) /\
  (List.length (qp_pending (set_text (lit "abc") qp_init)) <= 1)%nat /\
  (List.length (qp_pending (settle (handleSubmit [] (lit "abc") (lit "en"))
                              (set_text (lit "abc") qp_init))) <= 1)%nat /\
  ((List.length (qp_posts (set_text (lit "abc") qp_init)) <
    List.length (qp_posts (settle (handleSubmit [] (lit "abc") (lit "en"))
                             (set_text (lit "abc") qp_init))))%nat ->
   qp_pending (set_text (lit "abc") qp_init) = []).
Proof.
  assert (H1 : qreachable [] (set_text (lit "abc") qp_init)).
  { apply (qreach_step [] qp_init (QType (lit "abc"))); [constructor|].
    constructor; reflexivity. }
  assert (H2 : qstep [] (set_text (lit "abc") qp_init) QClickSubmit
                 (settle (handleSubmit [] (lit "abc") (lit "en"))
                         (set_text (lit "abc") qp_init))).
  { apply (qstep_submit [] (set_text (lit "abc") qp_init)); reflexivity. }
  split; [exact H1|split; [exact H2|]].
  exact (query_page_single_post_in_flight [] _ _ _ H1 H2).
Defined.

(** ** C6 *)

(** C6 (as stated, refuted): a query whose [response_text] is present but
    empty gets no text-to-speech request, since the guard is a truthiness
    test. *)
Lemma playTextToSpeech_empty_text :
  ~ (forall backend query,
       query_get query (lit "response_text") <> None ->
       first_request (playTextToSpeech backend query) <> None).
Proof.
  intros H.
  apply (H [] (Some [(lit "response_text", VStr [])])); [discriminate|reflexivity].
Qed.

Lemma obj_body_defined (k1 k2 : jsstr) (v1 v2 : value) :
  obj_body [(k1, Some v1); (k2, Some v2)] = VObj [(k1, v1); (k2, v2)].
Proof. reflexivity. Qed.

(** C6 (amended): when the query is not loaded or its [response_text] is
    falsy (absent, null or empty), [playTextToSpeech] does nothing;
    otherwise it makes exactly one request, the POST of
    [{text: response_text, language: detected_language || 'en'}] to
    [/api/text-to-speech], and plays only a blob URL of the bytes the
    server returns, nothing when the request fails. *)
Theorem playTextToSpeech_server_audio (backend : jsstr)
    (query : option (list (jsstr * value))) :
  (opt_truthy (query_get query (lit "response_text")) = false ->
   forall srv, run srv (playTextToSpeech backend query) = []) /\
  (forall text,
     query_get query (lit "response_text") = Some text -> value_truthy text = true ->
     let r := Post (API backend ++ lit "/text-to-speech")
                (VObj [(lit "text", text);
                       (lit "language",
                         opt_or (query_get query (lit "detected_language")) (VStr (lit "en")))])
                RTBlob in
     (forall srv, filter is_req (run srv (playTextToSpeech backend query)) = [OReq r]) /\
     (forall srv data, srv r = Resolved data ->
        audio_plays (run srv (playTextToSpeech backend query))
        = [BlobURL (blob_bytes data) (lit "audio/mpeg")]) /\
     (forall srv, srv r = Rejected ->
        audio_plays (run srv (playTextToSpeech backend query)) = [])).
Proof.
  split.
  - intros H srv; unfold playTextToSpeech; rewrite H; reflexivity.
  - intros text Ht Htr r.
    unfold playTextToSpeech; rewrite Ht; cbn [opt_truthy]; rewrite Htr; cbn [negb].
    rewrite obj_body_defined; fold r.
    split; [|split].
    + intros srv; simpl; destruct (srv r); reflexivity.
    + intros srv data Hs; simpl; rewrite Hs; reflexivity.
    + intros srv Hs; simpl; rewrite Hs; reflexivity.
Qed.

(** ** C7 *)

(** C7 (as stated, refuted): the [AudioPlayer] component points its audio
    element at the backend's HTTP URL, not at a blob URL. *)
Lemma AudioPlayer_http_source :
  ~ (forall backend audioId src,
       AudioPlayer backend audioId = APAudioElement src ->
       exists bytes mime, src = BlobURL bytes mime).
Proof.
  intros H.
  destruct (H [] (Some (VStr (lit "a1"))) _ eq_refl) as (bytes & mime & E).
  discriminate.
Qed.


(** C7 (amended): every text-to-speech playback (the response page's
    [playTextToSpeech], the query page's voice response and its "Play
    Response" button) plays a blob URL made from the bytes the server
    returned; the [AudioPlayer] component instead sets its audio
    element's [src] to [BACKEND_URL/api/audio/<audioId>], and renders no
    audio element for a falsy [audioId]. *)
Theorem audio_sources (backend : jsstr) :
  (forall query srv, plays_server_blob srv (playTextToSpeech backend query)) /\
  (forall response srv, plays_server_blob srv (handleVoiceResponse backend response)) /\
  (forall response srv, plays_server_blob srv (play_voice_answer backend response)) /\
  (forall audioId, opt_truthy audioId = true ->
     AudioPlayer backend audioId =
       APAudioElement (HttpURL (backend ++ lit "/api/audio/" ++ opt_to_js_string audioId))) /\
  (forall audioId, opt_truthy audioId = false -> AudioPlayer backend audioId = APNotAvailable).
Proof.
  assert (Hvoice : forall response srv,
             plays_server_blob srv (play_voice_answer backend response)).
  { intros response srv u Hu; unfold play_voice_answer in Hu; simpl in Hu.
    destruct (srv _) as [data|] eqn:Hs; simpl in Hu; [|contradiction].
    destruct Hu as [<-|[]]; eauto. }
  split; [|split; [|split; [exact Hvoice|split]]].
  - intros query srv u Hu; unfold playTextToSpeech in Hu.
    destruct (negb (opt_truthy _)); simpl in Hu; [contradiction|].
    destruct (srv _) as [data|] eqn:Hs; simpl in Hu; [|contradiction].
    destruct Hu as [<-|[]]; eauto.
  - intros response srv u Hu; apply (Hvoice response srv u); exact Hu.
  - intros audioId H; unfold AudioPlayer; rewrite H; reflexivity.
  - intros audioId H; unfold AudioPlayer; rewrite H; reflexivity.
Qed.

(** ** C8 *)

(** C8 (as stated, refuted): whatever the engine's date parsing outside
    the [YYYY-MM-DD] form, the truthy string ["2024-13-45"] (a month out
    of range) is formatted as ["Invalid Date"], not as a date. *)
Lemma formatDate_invalid_date :
  ~ (exists parse_other, forall dateString,
       opt_truthy dateString = true ->
       exists tv, formatDate parse_other dateString = DTLocale tv).
Proof.
  intros (parse_other & H).
  destruct (H (Some (VStr (lit "2024-13-45"))) eq_refl) as (tv & E).
  discriminate E.
Qed.

(** C8 (amended): [formatDate] returns the empty string for a falsy
    input; for a truthy input it returns the [en-IN] date string of
    [new Date(input)], or ["Invalid Date"] when that date is NaN; it never
    throws. *)
Theorem formatDate_cases (parse_other : jsstr -> option Z) (dateString : option value) :
  (opt_truthy dateString = false -> formatDate parse_other dateString = DTEmpty) /\
  (forall v, dateString = Some v -> value_truthy v = true ->
     formatDate parse_other dateString =
       match new_Date parse_other v with
       | Some tv => DTLocale tv
       | None => DTInvalid
       end).
Proof.
  split.
  - destruct dateString as [v|]; simpl; [|reflexivity].
    intros H; rewrite H; reflexivity.
  - intros v -> H; simpl; rewrite H; reflexivity.
Qed.

(** ** Evaluation on concrete inputs *)

Example getCategoryStyle_rti : getCategoryStyle (lit "rti") = JStr (lit "category-rti").
Proof. reflexivity. Qed.

Example getCategoryStyle_other : getCategoryStyle (lit "tax") = JStr (lit "category-general").
Proof. reflexivity. Qed.

Example getLanguageLabel_fr : getLanguageLabel (lit "fr") = JStr (lit "fr").
Proof. reflexivity. Qed.

Example split_example :
  split_unit comma (lit " a, ,b,") = [lit " a"; lit " "; lit "b"; []].
Proof. reflexivity. Qed.

Example trim_example : trim (lit "  x y ") = lit "x y".
Proof. reflexivity. Qed.

Example skillsArray_example :
  skillsArray (lit " criminal law, ,RTI ,") = [lit "criminal law"; lit "RTI"].
Proof. reflexivity. Qed.

Example formatDate_iso_day :
  formatDate (fun _ => None) (Some (VStr (lit "2024-01-05"))) = DTLocale 1704412800000.
Proof. reflexivity. Qed.

Example formatDate_empty : formatDate (fun _ => None) (Some (VStr [])) = DTEmpty.
Proof. reflexivity. Qed.

Example handleSubmit_blank_run :
  run (fun _ => Rejected) (handleSubmit (lit "http://h") [32; 9] (lit "en")) =
    [OEv EPreventDefault; OEv (EToast ToastError (lit "Please enter your legal query"))].
Proof. reflexivity. Qed.

Example handleSubmit_navigates :
  In (OEv (ENavigate (lit "/response/42")))
     (run (fun _ => Resolved (VObj [(lit "id", VNum 42)]))
          (handleSubmit (lit "http://h") (lit "theft") (lit "en"))).
Proof. simpl; tauto. Qed.

Example generate_document_place :
  first_request (handleGenerateDocument (lit "http://h") (lit "RTI") (lit "en") []
                   [(lit "name", lit "A"); (lit "address", lit "Pune, MH")]
                   (lit "2024-05-01T10:00:00.000Z"))
  = Some (Post (lit "http://h/api/documents")
            (VObj [(lit "doc_type", VStr (lit "RTI")); (lit "language", VStr (lit "en"));
                   (lit "details", VObj [(lit "name", VStr (lit "A"));
                                         (lit "address", VStr (lit "Pune, MH"));
                                         (lit "current_date", VStr (lit "2024-05-01"));
                                         (lit "place", VStr (lit "Pune"))])])
            RTJson).
Proof. reflexivity. Qed.
(** * Further properties of the frontend *)

(** ** Reading back UTF-8 *)

Ltac decide_ltb :=
  repeat match goal with
  | |- context [?a <? ?b] =>
      first [ replace (a <? b) with false
                by (symmetry; apply Z.ltb_ge; Z.to_euclidean_division_equations; lia)
            | replace (a <? b) with true
                by (symmetry; apply Z.ltb_lt; Z.to_euclidean_division_equations; lia) ]
  end.

Lemma utf8_cp_decode (c : Z) (rest : list Z) :
  0 <= c < 1114112 -> utf8_decode (utf8_cp c ++ rest) = c :: utf8_decode rest.
Proof.
  intros Hc. unfold utf8_cp.
  destruct (c <? 128) eqn:H1; [|destruct (c <? 2048) eqn:H2; [|destruct (c <? 65536) eqn:H3]];
    rewrite ?Z.ltb_lt, ?Z.ltb_ge in *; cbn [app utf8_decode]; decide_ltb;
    f_equal; Z.to_euclidean_division_equations; lia.
Qed.

Lemma utf16_cons (c : Z) (l : list Z) : utf16 (c :: l) = utf16_cp c ++ utf16 l.
Proof. reflexivity. Qed.

Lemma utf16_cp_bmp (c : Z) : 0 <= c < 65536 -> utf16_cp c = [c].
Proof. intros Hc. unfold utf16_cp. decide_ltb. reflexivity. Qed.

Lemma surrogate_bounds (c : Z) :
  (is_high_surrogate c = true -> 55296 <= c <= 56319) /\
  (is_low_surrogate c = true -> 56320 <= c <= 57343) /\
  (is_high_surrogate c = false -> c < 55296 \/ 56319 < c) /\
  (is_low_surrogate c = false -> c < 56320 \/ 57343 < c).
Proof.
  unfold is_high_surrogate, is_low_surrogate.
  split; [|split; [|split]]; intros Hx;
    repeat match goal with
    | H' : _ && _ = true |- _ => apply andb_prop in H'; destruct H'
    | H' : _ && _ = false |- _ => apply andb_false_iff in H'; destruct H'
    end; rewrite ?Z.leb_le, ?Z.leb_gt in *; lia.
Qed.

Lemma utf16_cp_pair (c d : Z) :
  is_high_surrogate c = true -> is_low_surrogate d = true ->
  utf16_cp (65536 + (c - 55296) * 1024 + (d - 56320)) = [c; d].
Proof.
  intros Hc Hd. apply surrogate_bounds in Hc. apply surrogate_bounds in Hd.
  unfold utf16_cp. decide_ltb. f_equal; [|f_equal]; Z.to_euclidean_division_equations; lia.
Qed.

Lemma utf8_roundtrip_n (n : nat) (s : jsstr) :
  (List.length s <= n)%nat -> code_units s -> utf16 (utf8_decode (utf8 s)) = to_well_formed s.
Proof.
  revert s. induction n as [|n IH]; intros s Hlen Hs.
  - destruct s; [reflexivity | simpl in Hlen; lia].
  - destruct s as [|c r]; [reflexivity|].
    inversion Hs as [|? ? Hc Hr]; subst.
    simpl in Hlen.
    cbn [utf8 to_well_formed].
    destruct (is_high_surrogate c) eqn:Hh.
    + destruct r as [|d r'].
      * rewrite <- (app_nil_r (utf8_cp 65533)), utf8_cp_decode by lia. reflexivity.
      * inversion Hr as [|? ? Hd Hr']; subst. simpl in Hlen.
        destruct (is_low_surrogate d) eqn:Hl.
        -- assert (55296 <= c <= 56319) by (apply surrogate_bounds; auto).
           assert (56320 <= d <= 57343) by (apply surrogate_bounds; auto).
           rewrite utf8_cp_decode by lia.
           rewrite utf16_cons, utf16_cp_pair by assumption.
           rewrite (IH r') by (auto; lia). reflexivity.
        -- rewrite utf8_cp_decode, utf16_cons, utf16_cp_bmp by lia.
           rewrite (IH (d :: r')) by (auto; simpl; lia). reflexivity.
    + destruct (is_low_surrogate c) eqn:Hl.
      * rewrite utf8_cp_decode, utf16_cons, utf16_cp_bmp by lia.
        rewrite (IH r) by (auto; lia). reflexivity.
      * rewrite utf8_cp_decode, utf16_cons, utf16_cp_bmp by lia.
        rewrite (IH r) by (auto; lia). reflexivity.
Qed.

(** Decoding the UTF-8 bytes of a string gives back the string, with its
    lone surrogates replaced by U+FFFD. *)
Theorem utf8_roundtrip (s : jsstr) :
  code_units s -> utf16 (utf8_decode (utf8 s)) = to_well_formed s.
Proof. intros Hs. apply (utf8_roundtrip_n (List.length s)); auto. Qed.

(** ** StudentPortal *)

(** [fetchData] issues both GET requests before either settles; it
    replaces the students and the cases together when both resolve and
    neither otherwise, and the loading flag is set first and cleared last
    in every outcome. *)
Theorem fetchData_outcomes (backend : jsstr) (srv : hreq -> resp) :
  let rs := HReq GET (API backend ++ lit "/students") None in
  let rc := HReq GET (API backend ++ lit "/cases") None in
  hrequests (hrun srv (fetchData backend)) = [rs; rc] /\
  hevents (hrun srv (fetchData backend)) =
    PSetState (lit "loading") (VBool true) ::
    match srv rs, srv rc with
    | Resolved ds, Resolved dc =>
        [PSetState (lit "students") ds; PSetState (lit "cases") dc;
         PSetState (lit "loading") (VBool false)]
    | _, _ =>
        [PConsoleError (lit "Error fetching data:"); PToast ToastError (lit "Failed to load data");
         PSetState (lit "loading") (VBool false)]
    end.
Proof.
  intros rs rc. unfold fetchData. cbn -[lit API].
  fold rs rc.
  destruct (srv rs), (srv rc); split; reflexivity.
Qed.

(** Each mutating handler of the portal sends its one request, with the
    form or selection unchanged and no validation, and reloads the lists
    exactly when that request resolves; a cancelled confirmation sends
    nothing. *)
Theorem portal_refetch_on_success (backend : jsstr) (srv : hreq -> resp)
    (studentId caseId : option value) (newCase selected : value) :
  refetch_iff_resolved srv (handleSeedData backend)
    (HReq POST (API backend ++ lit "/seed") None) /\
  refetch_iff_resolved srv (handleAddCase backend newCase)
    (HReq POST (API backend ++ lit "/cases") (Some newCase)) /\
  refetch_iff_resolved srv (handleAssignCase backend caseId selected)
    (HReq PATCH (API backend ++ lit "/cases/" ++ opt_to_js_string caseId)
       (Some (VObj [(lit "assigned_student_id", selected);
                    (lit "status", VStr (lit "assigned"))]))) /\
  refetch_iff_resolved srv (handleDeleteStudent backend true studentId)
    (HReq DELETE (API backend ++ lit "/students/" ++ opt_to_js_string studentId) None) /\
  refetch_iff_resolved srv (handleDeleteCase backend true caseId)
    (HReq DELETE (API backend ++ lit "/cases/" ++ opt_to_js_string caseId) None) /\
  hrun srv (handleDeleteStudent backend false studentId) = [] /\
  hrun srv (handleDeleteCase backend false caseId) = [].
Proof.
  split; [|split; [|split; [|split; [|split; [|split]]]]]; [..|reflexivity|reflexivity]; unfold refetch_iff_resolved, handleSeedData, handleAddCase, handleAssignCase,
    handleDeleteStudent, handleDeleteCase; cbn -[lit API opt_to_js_string];
    match goal with |- context [srv ?r] => destruct (srv r) end;
    cbn -[lit API opt_to_js_string]; (split; [reflexivity|]);
    split; intros H; try (destruct H as [? H]; discriminate);
    repeat destruct H as [H|H]; try discriminate; try contradiction; eauto 6.
Qed.


(** ** ResponsePage *)

(** After the [fetchQuery] effect the page shows the loaded query when the
    GET resolves with a truthy value, "Query Not Found" with the matching
    message otherwise, and stays on the loading spinner forever when the
    route gives an empty [queryId]. *)
Theorem ResponsePage_after_fetch (backend queryId : jsstr) (srv : hreq -> resp) :
  let r := HReq GET (API backend ++ lit "/queries/" ++ queryId) None in
  hrequests (hrun srv (fetchQuery_effect backend queryId)) =
    (if str_truthy queryId then [r] else []) /\
  ResponsePage_view
    (fold_left rp_apply (hevents (hrun srv (fetchQuery_effect backend queryId))) rp_init) =
  if negb (str_truthy queryId) then RPLoading
  else match srv r with
       | Resolved data =>
           if value_truthy data then RPResponse data
           else RPNotFound (VStr (lit "The requested query could not be found."))
       | Rejected => RPNotFound (VStr (lit "Failed to load query response"))
       end.
Proof.
  intros r. unfold fetchQuery_effect.
  destruct (str_truthy queryId); [|split; reflexivity].
  cbn -[lit API]. fold r.
  destruct (srv r) as [data|]; [|split; reflexivity].
  split; [reflexivity|].
  destruct data as [|b|n|s| | |]; cbn -[API];
    try destruct b; try destruct n; try destruct s; reflexivity.
Qed.

(** ** VoiceRecorder *)

(** [processAudio] posts the recording once; it calls [onTranscript] and
    [onVoiceResponse] exactly when the result is an object with a truthy
    [query_text], passing its fields on, and always ends by clearing
    [isProcessing]. *)
Theorem processAudio_callbacks (backend : jsstr) (hasVoiceResponse : bool) (language : jsstr)
    (audioBlob : list Z) (srv : hreq -> resp) :
  let r := HReq POST (API backend ++ lit "/voice-query") (Some (voice_form language audioBlob)) in
  let os := hrun srv (processAudio backend hasVoiceResponse language audioBlob) in
  hrequests os = [r] /\
  last (hevents os) (VConsoleLog []) = VSetProcessing false /\
  (forall t, In (VTranscript t) (hevents os) <->
     exists fs, srv r = Resolved (VObj fs) /\ t = field fs (lit "query_text") /\ opt_truthy t = true) /\
  (forall o, In (VVoiceResponse o) (hevents os) <->
     hasVoiceResponse = true /\
     exists fs, srv r = Resolved (VObj fs) /\ opt_truthy (field fs (lit "query_text")) = true /\
       o = [(lit "query_text", field fs (lit "query_text"));
            (lit "language", field fs (lit "language"));
            (lit "answer", field fs (lit "answer"))]).
Proof.
  intros r os. subst os. unfold processAudio. cbn -[lit API voice_form read_prop]. fold r.
  destruct (srv r) as [result|] eqn:E.
  - destruct result as [| | | | |fs|]; cbn -[lit API voice_form field];
      try (split; [reflexivity|]; split; [reflexivity|];
           split; intros x; split; intros H;
           repeat match goal with
           | H : _ /\ _ |- _ => destruct H
           | H : exists _, _ |- _ => destruct H
           | H : _ \/ _ |- _ => destruct H
           | H : Resolved _ = Resolved _ |- _ => discriminate H
           | H : _ = _ |- _ => discriminate H
           | H : False |- _ => contradiction
           end; fail).
    destruct (opt_truthy (field fs (lit "query_text"))) eqn:T, hasVoiceResponse;
      cbn -[lit API voice_form field opt_truthy];
      (split; [reflexivity|]); (split; [reflexivity|]);
      split; intros x; split; intros H;
      repeat match goal with
      | H : _ /\ _ |- _ => destruct H
      | H : exists _, _ |- _ => destruct H
      | H : _ \/ _ |- _ => destruct H
      | H : Resolved _ = Resolved _ |- _ => injection H as <-
      | H : VTranscript _ = VTranscript _ |- _ => injection H as <-
      | H : VVoiceResponse _ = VVoiceResponse _ |- _ => injection H as <-
      | H : ?a = ?b |- _ => discriminate H
      | H : False |- _ => contradiction
      end; subst; eauto 8; try congruence.
  - cbn -[lit API voice_form].
    split; [reflexivity|]; split; [reflexivity|].
    split; intros x; split; intros H;
      repeat match goal with
      | H : _ /\ _ |- _ => destruct H
      | H : exists _, _ |- _ => destruct H
      | H : _ \/ _ |- _ => destruct H
      | H : _ = _ |- _ => discriminate H
      | H : False |- _ => contradiction
      end.
Qed.

Lemma defined_fields_voice (a b c : option value) :
  field (defined_fields [(lit "query_text", a); (lit "language", b); (lit "answer", c)])
        (lit "answer") = c /\
  field (defined_fields [(lit "query_text", a); (lit "language", b); (lit "answer", c)])
        (lit "language") = b.
Proof. destruct a, b, c; split; reflexivity. Qed.

(** On the query page, a voice query whose result has a truthy
    [query_text] leads to a text-to-speech request for the returned
    [answer] in the returned [language]. *)
Theorem voice_answer_spoken (backend language : jsstr) (audioBlob : list Z)
    (srv : hreq -> resp) (fs : list (jsstr * value)) :
  srv (HReq POST (API backend ++ lit "/voice-query") (Some (voice_form language audioBlob)))
    = Resolved (VObj fs) ->
  opt_truthy (field fs (lit "query_text")) = true ->
  exists o,
    In (VVoiceResponse o) (hevents (hrun srv (processAudio backend true language audioBlob))) /\
    first_request (handleVoiceResponse backend (defined_fields o)) =
      Some (Post (API backend ++ lit "/text-to-speech")
              (obj_body [(lit "text", field fs (lit "answer"));
                         (lit "language", field fs (lit "language"))])
              RTBlob).
Proof.
  intros E T.
  eexists. split.
  - unfold processAudio. cbn -[lit API voice_form field opt_truthy]. rewrite E.
    cbn -[lit API voice_form field opt_truthy]. rewrite T.
    cbn -[lit API voice_form field opt_truthy]. right; right; left; reflexivity.
  - unfold handleVoiceResponse, play_voice_answer. cbn [first_request].
    destruct (defined_fields_voice (field fs (lit "query_text")) (field fs (lit "language"))
                (field fs (lit "answer"))) as [A L].
    rewrite A, L. reflexivity.
Qed.

Lemma rinv_step (st : recorder_state) (ev : recorder_event) (st' : recorder_state) :
  rinv st -> rstep st ev st' -> rinv st'.
Proof.
  intros [Hlen Hproc] Hs. destruct Hs as [st Hen|st p Hp|st p Hp|st Hen|st l1 n l2 Hl|st i Hi];
    unfold rinv in *; cbn [vr_stopping vr_inflight vr_processing] in *.
  - split; assumption.
  - split; assumption.
  - split; assumption.
  - unfold stop_enabled in Hen. apply andb_prop in Hen as [_ Hen].
    apply negb_true_iff, orb_false_iff in Hen as [Hrec Hp].
    destruct (Hproc Hp) as [Hst Hin].
    unfold stopRecording. destruct (vr_ref st) as [m|]; [|split; assumption].
    apply negb_false_iff in Hrec. rewrite Hrec. cbn.
    rewrite Hst, Hin. split; [cbn; lia | discriminate].
  - rewrite Hl in *. rewrite length_app in *. cbn in Hlen.
    split; [lia|].
    intros Hp. destruct (Hproc Hp) as [Hnil _]. destruct l1; discriminate.
  - rewrite Hi in *. split; [lia|].
    intros _. split; [|lia]. destruct (vr_stopping st); [reflexivity|cbn in Hlen; lia].
Qed.

(** In every reachable state of the recorder at most one recording is
    stopped or awaiting its voice query, and none while [isProcessing] is
    clear, i.e. while Start or Stop can be clicked. *)
Theorem voice_recorder_one_at_a_time (st : recorder_state) :
  rreachable st ->
  (List.length (vr_stopping st) + vr_inflight st <= 1)%nat /\
  (vr_processing st = false -> vr_stopping st = [] /\ vr_inflight st = 0%nat).
Proof.
  intros R. induction R as [|st ev st' R IH Hs].
  - split; [cbn; lia | intros _; split; reflexivity].
  - exact (rinv_step st ev st' IH Hs).
Qed.

(** ** Navbar *)

(** Exactly one navigation link is highlighted on the four linked paths,
    and none on any other path. *)
Theorem nav_single_active (pathname : jsstr) :
  List.length (filter (fun b : bool => b) (nav_active pathname)) =
  if existsb (jsstr_eqb pathname) (map fst navLinks) then 1%nat else 0%nat.
Proof.
  unfold nav_active, isActive, navLinks. cbn [map fst filter existsb].
  destruct (jsstr_eqb pathname (lit "/")) eqn:E1;
    [apply jsstr_eqb_spec in E1; subst; reflexivity|].
  destruct (jsstr_eqb pathname (lit "/query")) eqn:E2;
    [apply jsstr_eqb_spec in E2; subst; reflexivity|].
  destruct (jsstr_eqb pathname (lit "/students")) eqn:E3;
    [apply jsstr_eqb_spec in E3; subst; reflexivity|].
  destruct (jsstr_eqb pathname (lit "/documents")) eqn:E4;
    [apply jsstr_eqb_spec in E4; subst; reflexivity|].
  reflexivity.
Qed.

Lemma find_all_false {A : Type} (f : A -> bool) (l : list A) :
  (forall x, In x l -> f x = false) -> find f l = None.
Proof.
  induction l as [|a l IH]; intros H; [reflexivity|].
  cbn. rewrite (H a (or_introl eq_refl)). apply IH. intros x Hx. apply H. right; exact Hx.
Qed.

Lemma find_first {A : Type} (f : A -> bool) (pre : list A) (x : A) (post : list A) :
  (forall y, In y pre -> f y = false) -> f x = true -> find f (pre ++ x :: post) = Some x.
Proof.
  induction pre as [|a pre IH]; intros H Hx; cbn; [rewrite Hx; reflexivity|].
  rewrite (H a (or_introl eq_refl)). apply IH; [|exact Hx].
  intros y Hy. apply H. right; exact Hy.
Qed.

(** ** The case table *)

(** For a case whose status is not [open] the "Assigned To" cell shows
    the name of the first student whose id is strictly equal to the
    case's [assigned_student_id] (or "-" if that name is falsy), and "-"
    when no student has that id. *)
Theorem assignment_cell_not_open (students : list (list (jsstr * value)))
    (caseItem : list (jsstr * value)) :
  strict_eq (field caseItem (lit "status")) (Some (VStr (lit "open"))) = false ->
  ((forall s, In s students ->
      strict_eq (field s (lit "id")) (field caseItem (lit "assigned_student_id")) = false) ->
   assignment_cell students caseItem = CellText (VStr (lit "-"))) /\
  (forall pre s post, students = pre ++ s :: post ->
   (forall s', In s' pre ->
      strict_eq (field s' (lit "id")) (field caseItem (lit "assigned_student_id")) = false) ->
   strict_eq (field s (lit "id")) (field caseItem (lit "assigned_student_id")) = true ->
   assignment_cell students caseItem = CellText (opt_or (field s (lit "name")) (VStr (lit "-")))).
Proof.
  intros Hst. unfold assignment_cell. rewrite Hst. split.
  - intros Hnone.
    rewrite find_all_false; [reflexivity|exact Hnone].
  - intros pre s post -> Hpre Hs.
    rewrite (find_first _ pre s post Hpre Hs). reflexivity.
Qed.

Lemma obj_assign_fresh (fs : list (jsstr * value)) (k : jsstr) (v : value) :
  ~ In k (map fst fs) -> obj_assign fs k v = fs ++ [(k, v)].
Proof.
  induction fs as [|[k' v'] fs IH]; intros H; [reflexivity|].
  cbn. destruct (jsstr_eqb k k') eqn:E.
  - apply jsstr_eqb_spec in E. subst. exfalso. apply H. left. reflexivity.
  - f_equal. apply IH. intros Hin. apply H. right. exact Hin.
Qed.

Lemma details_values_fresh (d : details_t) (acc : list (jsstr * value)) :
  NoDup (map fst d) ->
  (forall k, In k (map fst d) -> ~ In k (map fst acc)) ->
  fold_left (fun acc '(k, v) => obj_assign acc k (VStr v)) d acc =
  acc ++ map (fun kv => (fst kv, VStr (snd kv))) d.
Proof.
  revert acc. induction d as [|[k v] d IH]; intros acc Hnd Hfr.
  - cbn. rewrite app_nil_r. reflexivity.
  - cbn [fold_left]. inversion Hnd as [|? ? Hk Hnd']; subst.
    rewrite obj_assign_fresh by (apply Hfr; left; reflexivity).
    rewrite IH; [rewrite <- app_assoc; reflexivity | exact Hnd' |].
    intros k' Hk' Hin. rewrite map_app, in_app_iff in Hin. destruct Hin as [Hin|Hin].
    + apply (Hfr k'); [right; exact Hk'|exact Hin].
    + destruct Hin as [Hin|[]]. cbn in Hin. subst. contradiction.
Qed.

Lemma first_piece_prefix (sep : Z) (s : jsstr) :
  sep_free sep (first_piece sep s) /\
  exists rest, s = first_piece sep s ++ rest /\ (rest = [] \/ exists r, rest = sep :: r).
Proof.
  unfold first_piece, sep_free. induction s as [|c r IH].
  - split; [reflexivity|]. exists []. split; [reflexivity|left; reflexivity].
  - cbn [split_unit]. destruct (Z.eqb c sep) eqn:E.
    + apply Z.eqb_eq in E. subst. split; [reflexivity|].
      exists (sep :: r). split; [reflexivity|right; eauto].
    + destruct (split_unit sep r) as [|seg segs] eqn:S.
      * exfalso. exact (split_unit_not_nil sep r S).
      * cbn [hd] in *. destruct IH as [IHf [rest [IHe IHr]]].
        split.
        -- unfold includes_unit in *. cbn [existsb]. rewrite Z.eqb_sym, E. exact IHf.
        -- exists rest. split; [cbn; f_equal; exact IHe | exact IHr].
Qed.

(** ** DocumentsPage *)

(** For a form with distinct keys other than [current_date] and [place],
    the posted details are the form fields unchanged and in order, then
    [current_date] and [place]; [place] is the non-empty text of the
    address before its first comma, or "Your City" when that text is
    empty. *)
Theorem document_body_details (docType language : jsstr) (d : details_t) (now_iso address : jsstr) :
  NoDup (map fst d) ->
  ~ In (lit "current_date") (map fst d) ->
  ~ In (lit "place") (map fst d) ->
  obj_get d (lit "address") = JStr address ->
  exists place,
    document_body docType language d now_iso =
      Some (VObj [(lit "doc_type", VStr docType);
                  (lit "language", VStr language);
                  (lit "details",
                    VObj (map (fun kv => (fst kv, VStr (snd kv))) d ++
                          [(lit "current_date", VStr (first_piece 84 now_iso));
                           (lit "place", VStr place)]))]) /\
    ((place <> [] /\ sep_free comma place /\
      exists rest, address = place ++ rest /\ (rest = [] \/ exists r, rest = comma :: r)) \/
     (place = lit "Your City" /\ (address = [] \/ exists r, address = comma :: r))).
Proof.
  intros Hnd Hcd Hpl Ha.
  unfold document_body. rewrite Ha.
  unfold details_values.
  rewrite details_values_fresh by (auto; intros k _ []).
  rewrite app_nil_l.
  rewrite (obj_assign_fresh (map _ d) (lit "current_date"))
    by (rewrite map_map; exact Hcd).
  rewrite obj_assign_fresh.
  2:{ rewrite map_app, map_map, in_app_iff. intros [H|[H|[]]]; [contradiction|discriminate]. }
  destruct (first_piece_prefix comma address) as [Hf [rest [He Hr]]].
  destruct (first_piece comma address) as [|c p] eqn:P.
  - exists (lit "Your City"). split.
    + cbn [str_truthy]. rewrite <- app_assoc. reflexivity.
    + right. split; [reflexivity|]. cbn in He. subst. exact Hr.
  - exists (c :: p). split.
    + cbn [str_truthy]. rewrite <- app_assoc. reflexivity.
    + left. split; [discriminate|]. split; [exact Hf|]. eauto.
Qed.

(** [handleDownload] saves the document content as a UTF-8 text file named
    [docType_language_timestamp.txt] whose decoding is the content, and
    revokes the object URL it created after the click. *)
Theorem handleDownload_saves_content (fs : list (jsstr * value)) (text docType language : jsstr)
    (now : Z) :
  field fs (lit "content") = Some (VStr text) ->
  code_units text ->
  exists bytes,
    handleDownload (VObj fs) docType language now =
      [DCreateObjectURL (BlobURL bytes (lit "text/plain"));
       DAppendAnchor (BlobURL bytes (lit "text/plain"))
         (docType ++ lit "_" ++ language ++ lit "_" ++ Z_to_dec now ++ lit ".txt");
       DClickAnchor;
       DRemoveAnchor;
       DRevokeObjectURL (BlobURL bytes (lit "text/plain"));
       DToast ToastSuccess (lit "Document downloaded!")] /\
    utf16 (utf8_decode bytes) = to_well_formed text.
Proof.
  intros Hc Hu. exists (utf8 text). split.
  - unfold handleDownload. cbn [value_truthy negb]. rewrite Hc. reflexivity.
  - apply utf8_roundtrip. exact Hu.
Qed.

(** ** Witnesses *)

Lemma voice_answer_spoken_witness :
  (fun _ : hreq => Resolved (VObj [(lit "query_text", VStr (lit "help"));
                                   (lit "language", VStr (lit "hi"));
                                   (lit "answer", VStr (lit "ok"))]))
    (HReq POST (API [] ++ lit "/voice-query") (Some (voice_form (lit "hi") [])))
  = Resolved (VObj [(lit "query_text", VStr (lit "help"));
                    (lit "language", VStr (lit "hi"));
                    (lit "answer", VStr (lit "ok"))]) /\
  opt_truthy (field [(lit "query_text", VStr (lit "help"));
                     (lit "language", VStr (lit "hi"));
                     (lit "answer", VStr (lit "ok"))] (lit "query_text")) = true /\
  exists o,
    In (VVoiceResponse o)
       (hevents (hrun (fun _ : hreq => Resolved (VObj [(lit "query_text", VStr (lit "help"));
                                                      (lit "language", VStr (lit "hi"));
                                                      (lit "answer", VStr (lit "ok"))]))
                      (processAudio [] true (lit "hi") []))) /\
    first_request (handleVoiceResponse [] (defined_fields o)) =
      Some (Post (API [] ++ lit "/text-to-speech")
              (obj_body [(lit "text", Some (VStr (lit "ok")));
                         (lit "language", Some (VStr (lit "hi")))])
              RTBlob).
Proof.
  split; [reflexivity|]. split; [reflexivity|].
  apply (voice_answer_spoken [] (lit "hi") []
           (fun _ : hreq => Resolved (VObj [(lit "query_text", VStr (lit "help"));
                                            (lit "language", VStr (lit "hi"));
                                            (lit "answer", VStr (lit "ok"))]))
           [(lit "query_text", VStr (lit "help"));
            (lit "language", VStr (lit "hi"));
            (lit "answer", VStr (lit "ok"))]); reflexivity.
Defined.

Lemma voice_recorder_one_at_a_time_witness :
  rreachable
    {| vr_recording := false; vr_processing := true; vr_supported := true;
       vr_media_pending := 0; vr_ref := Some 0%nat; vr_next := 1;
       vr_stopping := [0%nat]; vr_inflight := 0 |} /\
  (List.length [0%nat] + 0 <= 1)%nat /\
  (true = false -> [0%nat] = [] /\ 0%nat = 0%nat).
Proof.
  assert (R : rreachable
    {| vr_recording := false; vr_processing := true; vr_supported := true;
       vr_media_pending := 0; vr_ref := Some 0%nat; vr_next := 1;
       vr_stopping := [0%nat]; vr_inflight := 0 |}).
  { apply (rreach_step
             {| vr_recording := true; vr_processing := false; vr_supported := true;
                vr_media_pending := 0; vr_ref := Some 0%nat; vr_next := 1;
                vr_stopping := []; vr_inflight := 0 |} RClickStop).
    - apply (rreach_step
               {| vr_recording := false; vr_processing := false; vr_supported := true;
                  vr_media_pending := 1; vr_ref := None; vr_next := 0;
                  vr_stopping := []; vr_inflight := 0 |} RMediaGranted).
      + apply (rreach_step vr_init RClickStart).
        * exact rreach_init.
        * exact (rstep_start vr_init eq_refl).
      + exact (rstep_granted
                 {| vr_recording := false; vr_processing := false; vr_supported := true;
                    vr_media_pending := 1; vr_ref := None; vr_next := 0;
                    vr_stopping := []; vr_inflight := 0 |} 0 eq_refl).
    - exact (rstep_stop
               {| vr_recording := true; vr_processing := false; vr_supported := true;
                  vr_media_pending := 0; vr_ref := Some 0%nat; vr_next := 1;
                  vr_stopping := []; vr_inflight := 0 |} eq_refl). }
  split; [exact R|].
  exact (voice_recorder_one_at_a_time _ R).
Defined.

Lemma assignment_cell_not_open_witness :
  strict_eq (field [(lit "status", VStr (lit "assigned"));
                    (lit "assigned_student_id", VStr (lit "s1"))] (lit "status"))
            (Some (VStr (lit "open"))) = false /\
  ((forall s, In s [[(lit "id", VStr (lit "s1")); (lit "name", VStr (lit "Asha"))]] ->
      strict_eq (field s (lit "id"))
        (field [(lit "status", VStr (lit "assigned"));
                (lit "assigned_student_id", VStr (lit "s1"))] (lit "assigned_student_id")) = false) ->
   assignment_cell [[(lit "id", VStr (lit "s1")); (lit "name", VStr (lit "Asha"))]]
     [(lit "status", VStr (lit "assigned")); (lit "assigned_student_id", VStr (lit "s1"))]
   = CellText (VStr (lit "-"))) /\
  (forall pre s post,
   [[(lit "id", VStr (lit "s1")); (lit "name", VStr (lit "Asha"))]] = pre ++ s :: post ->
   (forall s', In s' pre ->
      strict_eq (field s' (lit "id"))
        (field [(lit "status", VStr (lit "assigned"));
                (lit "assigned_student_id", VStr (lit "s1"))] (lit "assigned_student_id")) = false) ->
   strict_eq (field s (lit "id"))
     (field [(lit "status", VStr (lit "assigned"));
             (lit "assigned_student_id", VStr (lit "s1"))] (lit "assigned_student_id")) = true ->
   assignment_cell [[(lit "id", VStr (lit "s1")); (lit "name", VStr (lit "Asha"))]]
     [(lit "status", VStr (lit "assigned")); (lit "assigned_student_id", VStr (lit "s1"))]
   = CellText (opt_or (field s (lit "name")) (VStr (lit "-")))).
Proof.
  split; [reflexivity|].
  apply (assignment_cell_not_open
           [[(lit "id", VStr (lit "s1")); (lit "name", VStr (lit "Asha"))]]
           [(lit "status", VStr (lit "assigned")); (lit "assigned_student_id", VStr (lit "s1"))]).
  reflexivity.
Defined.

Lemma document_body_details_witness :
  NoDup (map fst [(lit "name", lit "Ravi"); (lit "address", lit "12 MG Road, Pune")]) /\
  ~ In (lit "current_date") (map fst [(lit "name", lit "Ravi"); (lit "address", lit "12 MG Road, Pune")]) /\
  ~ In (lit "place") (map fst [(lit "name", lit "Ravi"); (lit "address", lit "12 MG Road, Pune")]) /\
  obj_get [(lit "name", lit "Ravi"); (lit "address", lit "12 MG Road, Pune")] (lit "address")
    = JStr (lit "12 MG Road, Pune") /\
  exists place,
    document_body (lit "FIR") (lit "en")
      [(lit "name", lit "Ravi"); (lit "address", lit "12 MG Road, Pune")]
      (lit "2024-05-01T10:00:00.000Z") =
      Some (VObj [(lit "doc_type", VStr (lit "FIR"));
                  (lit "language", VStr (lit "en"));
                  (lit "details",
                    VObj (map (fun kv => (fst kv, VStr (snd kv)))
                            [(lit "name", lit "Ravi"); (lit "address", lit "12 MG Road, Pune")] ++
                          [(lit "current_date",
                             VStr (first_piece 84 (lit "2024-05-01T10:00:00.000Z")));
                           (lit "place", VStr place)]))]) /\
    ((place <> [] /\ sep_free comma place /\
      exists rest, lit "12 MG Road, Pune" = place ++ rest /\
                   (rest = [] \/ exists r, rest = comma :: r)) \/
     (place = lit "Your City" /\
      (lit "12 MG Road, Pune" = [] \/ exists r, lit "12 MG Road, Pune" = comma :: r))).
Proof.
  assert (H1 : NoDup (map fst [(lit "name", lit "Ravi"); (lit "address", lit "12 MG Road, Pune")])).
  { cbn [map fst]. constructor; [|constructor; [intros []|constructor]].
    intros [H|[]]; discriminate. }
  assert (H2 : ~ In (lit "current_date")
                 (map fst [(lit "name", lit "Ravi"); (lit "address", lit "12 MG Road, Pune")])).
  { cbn [map fst]. intros [H|[H|[]]]; discriminate. }
  assert (H3 : ~ In (lit "place")
                 (map fst [(lit "name", lit "Ravi"); (lit "address", lit "12 MG Road, Pune")])).
  { cbn [map fst]. intros [H|[H|[]]]; discriminate. }
  assert (H4 : obj_get [(lit "name", lit "Ravi"); (lit "address", lit "12 MG Road, Pune")]
                 (lit "address") = JStr (lit "12 MG Road, Pune")) by reflexivity.
  split; [exact H1|]. split; [exact H2|]. split; [exact H3|]. split; [exact H4|].
  exact (document_body_details (lit "FIR") (lit "en") _ (lit "2024-05-01T10:00:00.000Z") _
           H1 H2 H3 H4).
Defined.

Lemma handleDownload_saves_content_witness :
  field [(lit "content", VStr (lit "FIR"))] (lit "content") = Some (VStr (lit "FIR")) /\
  code_units (lit "FIR") /\
  exists bytes,
    handleDownload (VObj [(lit "content", VStr (lit "FIR"))]) (lit "FIR") (lit "en") 1714557600000 =
      [DCreateObjectURL (BlobURL bytes (lit "text/plain"));
       DAppendAnchor (BlobURL bytes (lit "text/plain"))
         (lit "FIR" ++ lit "_" ++ lit "en" ++ lit "_" ++ Z_to_dec 1714557600000 ++ lit ".txt");
       DClickAnchor;
       DRemoveAnchor;
       DRevokeObjectURL (BlobURL bytes (lit "text/plain"));
       DToast ToastSuccess (lit "Document downloaded!")] /\
    utf16 (utf8_decode bytes) = to_well_formed (lit "FIR").
Proof.
  assert (H1 : field [(lit "content", VStr (lit "FIR"))] (lit "content") = Some (VStr (lit "FIR")))
    by reflexivity.
  assert (H2 : code_units (lit "FIR")).
  { unfold code_units. cbn. repeat (apply Forall_cons; [lia|]). apply Forall_nil. }
  split; [exact H1|]. split; [exact H2|].
  exact (handleDownload_saves_content _ _ (lit "FIR") (lit "en") 1714557600000 H1 H2).
Defined.
